(** * Battleship puzzle checker: a shallow embedding of [Battleship_puzzle.py]

    The Python module checks a proposed fleet placement for a Battleship
    logic puzzle.  Python integers are unbounded, so they are [Z] here.
    Python lists are Rocq lists read and written through [getitem] and
    [setitem], which follow Python's indexing: a negative index counts from
    the end of the list and an index outside [-len, len) raises
    [IndexError].  Code that touches the board matrix runs in the monad
    [Py], which carries the raised exception, if any, and the log of the
    matrix positions that were touched. *)

From stdpp Require Import base decidable option list numbers gmap.

Local Open Scope Z_scope.

(** ** Exceptions and the two monads *)

Inductive excepcion : Type :=
| IndexError
| TypeError.

Inductive resultado (A : Type) : Type :=
| Ok (a : A)
| Lanza (e : excepcion).

Arguments Ok {A} a.
Arguments Lanza {A} e.

Global Instance excepcion_eq_dec : EqDecision excepcion.
Proof. solve_decision. Defined.

Global Instance resultado_eq_dec `{EqDecision A} : EqDecision (resultado A).
Proof. solve_decision. Defined.

Global Instance resultado_ret : MRet resultado := fun A a => Ok a.

Global Instance resultado_bind : MBind resultado := fun A B k m =>
  match m with
  | Ok a => k a
  | Lanza e => Lanza e
  end.

(** A position of the board matrix, as the pair (row, column) the code
    indexes it with. *)
Definition Posicion : Type := Z * Z.

(** A computation over the board: its outcome and the matrix positions it
    indexed, in the order it indexed them. *)
Record Py (A : Type) : Type := MkPy {
  valor : resultado A;
  accesos : list Posicion
}.

Arguments MkPy {A} valor accesos.
Arguments valor {A} p.
Arguments accesos {A} p.

Global Instance Py_ret : MRet Py := fun A a => MkPy (Ok a) [].

Global Instance Py_bind : MBind Py := fun A B k m =>
  match valor m with
  | Ok a => MkPy (valor (k a)) (accesos m ++ accesos (k a))
  | Lanza e => MkPy (Lanza e) (accesos m)
  end.

(** A computation that does not touch the matrix. *)
Definition sin_acceso {A} (r : resultado A) : Py A := MkPy r [].

(** ** Python lists *)

(** [range(a, b)]: empty when [b <= a]. *)
Definition range (a b : Z) : list Z := seqZ a (b - a).

(** The slot a Python index designates, or [IndexError]. *)
Definition py_indice {A} (l : list A) (i : Z) : resultado nat :=
  let n := Z.of_nat (length l) in
  if bool_decide (0 <= i < n) then Ok (Z.to_nat i)
  else if bool_decide (- n <= i < 0) then Ok (Z.to_nat (n + i))
  else Lanza IndexError.

(** [l[i]] *)
Definition getitem {A} (l : list A) (i : Z) : resultado A :=
  k ← py_indice l i;
  match l !! k with
  | Some x => Ok x
  | None => Lanza IndexError
  end.

(** [l[i] = v], returning the list after the assignment. *)
Definition setitem {A} (l : list A) (i : Z) (v : A) : resultado (list A) :=
  k ← py_indice l i;
  Ok (<[k := v]> l).

(** [for x in l: s = cuerpo(s, x)], for a loop body that updates the
    state [s] and may raise. *)
Fixpoint para_cada `{MBind M, MRet M} {A S : Type} (cuerpo : S -> A -> M S)
    (l : list A) (s : S) : M S :=
  match l with
  | [] => mret s
  | x :: l' => s' ← cuerpo s x; para_cada cuerpo l' s'
  end.

(** [for x in l: if not cuerpo(x): return False] followed by
    [return True]: the loop stops at the first element whose body asks to
    return [False]. *)
Fixpoint todos {A : Type} (cuerpo : A -> Py bool) (l : list A) : Py bool :=
  match l with
  | [] => mret true
  | x :: l' =>
      sigue ← cuerpo x;
      if sigue : bool then todos cuerpo l' else mret false
  end.

(** [sum(1 for x in l if cond(x))] *)
Fixpoint contar {A : Type} (cond : A -> Py bool) (l : list A) : Py Z :=
  match l with
  | [] => mret 0
  | x :: l' =>
      b ← cond x;
      n ← contar cond l';
      mret ((if b : bool then 1 else 0) + n)
  end.

(** [[x for x in l if cond(x)]] *)
Fixpoint filtrar {A : Type} (cond : A -> Py bool) (l : list A) : Py (list A) :=
  match l with
  | [] => mret []
  | x :: l' =>
      b ← cond x;
      r ← filtrar cond l';
      mret (if b : bool then x :: r else r)
  end.

(** ** Data model *)

Module Pieza.

Inductive t : Type := W | C | L | R | T | B | M.

Global Instance eq_dec : EqDecision t.
Proof. solve_decision. Defined.

(** [es_barco]: [self != Pieza.W] *)
Definition es_barco (self : t) : bool := bool_decide (self <> W).

End Pieza.

Inductive Direccion : Type := VERTICAL | HORIZONTAL.

Record Celda : Type := MkCelda {
  fila : Z;
  columna : Z;
  tipo : Pieza.t
}.

Global Instance Celda_eq_dec : EqDecision Celda.
Proof. solve_decision. Defined.

Record Objetivo : Type := MkObjetivo {
  ubicacion : Z * Z;
  partes : list Celda
}.

(** ** Ship geometry *)

(** [Barco.construir_partes_barco].  The working list starts as
    [[None] * longitud]; a slot holds [None] until it is assigned. *)
Definition construir_partes_barco (longitud : Z) (direccion : Direccion)
    (ubicacion : Z * Z) : resultado (list (option Celda)) :=
  let partes := replicate (Z.to_nat longitud) (@None Celda) in
  let '(f_ini, c_ini) := ubicacion in
  match direccion with
  | VERTICAL =>
      partes ← setitem partes 0 (Some (MkCelda f_ini c_ini Pieza.T));
      partes ← setitem partes (-1)
                 (Some (MkCelda (f_ini + longitud - 1) c_ini Pieza.B));
      para_cada
        (fun partes i => setitem partes i (Some (MkCelda (f_ini + i) c_ini Pieza.M)))
        (range 1 (longitud - 1)) partes
  | HORIZONTAL =>
      partes ← setitem partes 0 (Some (MkCelda f_ini c_ini Pieza.L));
      partes ← setitem partes (-1)
                 (Some (MkCelda f_ini (c_ini + longitud - 1) Pieza.R));
      para_cada
        (fun partes i => setitem partes i (Some (MkCelda f_ini (c_ini + i) Pieza.M)))
        (range 1 (longitud - 1)) partes
  end.

(** [Barco(Objetivo)]: the base object plus the two fields the subclass
    adds. *)
Record Barco : Type := MkBarco {
  longitud : Z;
  direccion : Direccion;
  Barco_objetivo :> Objetivo
}.

(** [Barco.__init__].  [Objetivo.partes] is a list of cells; a slot the
    builder had left at [None] would not be one ([Barco_init_casos] below
    shows that the builder leaves none). *)
Definition Barco_init (ubicacion : Z * Z) (longitud : Z)
    (direccion : Direccion) : resultado Barco :=
  partes ← construir_partes_barco longitud direccion ubicacion;
  match mapM id partes with
  | Some celdas => Ok (MkBarco longitud direccion (MkObjetivo ubicacion celdas))
  | None => Lanza TypeError
  end.

(** [Submarino.__init__] *)
Definition Submarino (ubicacion : Z * Z) : Objetivo :=
  MkObjetivo ubicacion [MkCelda ubicacion.1 ubicacion.2 Pieza.C].

(** ** The board *)

Record Tablero : Type := MkTablero {
  tamano_tablero : Z * Z;
  flota : list Objetivo;
  pistas : list (Z * Z * Pieza.t);
  pistas_filas : list Z;
  pistas_cols : list Z;
  matriz : list (list Pieza.t)
}.

(** [0 <= f < filas and 0 <= c < cols] *)
Definition dentro (f c filas cols : Z) : bool :=
  bool_decide (0 <= f < filas) && bool_decide (0 <= c < cols).

(** [matriz[f][c]] *)
Definition leer (matriz : list (list Pieza.t)) (f c : Z) : Py Pieza.t :=
  MkPy (fila_f ← getitem matriz f; getitem fila_f c) [(f, c)].

(** [matriz[f][c] = v].  The rows are separate list objects (the
    comprehension in [construir_matriz] builds a fresh one per row), so
    assigning into one row leaves the others as they were. *)
Definition escribir (matriz : list (list Pieza.t)) (f c : Z) (v : Pieza.t)
    : Py (list (list Pieza.t)) :=
  MkPy (k ← py_indice matriz f;
        match matriz !! k with
        | Some fila_f => fila_f' ← setitem fila_f c v; Ok (<[k := fila_f']> matriz)
        | None => Lanza IndexError
        end)
       [(f, c)].

(** [Tablero.construir_matriz] *)
Definition construir_matriz (tamano_tablero : Z * Z) (flota : list Objetivo)
    : Py (list (list Pieza.t)) :=
  let '(filas, cols) := tamano_tablero in
  let matriz := (fun _ => (fun _ => Pieza.W) <$> range 0 cols) <$> range 0 filas in
  para_cada
    (fun matriz obj =>
       para_cada
         (fun matriz celda =>
            let f := fila celda in
            let c := columna celda in
            if dentro f c filas cols then escribir matriz f c (tipo celda)
            else mret matriz)
         (partes obj) matriz)
    flota matriz.

(** [Tablero.__init__] *)
Definition Tablero_init (nFilas nColumnas : Z) (flota : list Objetivo)
    (pistas : list (Z * Z * Pieza.t)) (pistas_filas pistas_cols : list Z)
    : Py Tablero :=
  matriz ← construir_matriz (nFilas, nColumnas) flota;
  mret (MkTablero (nFilas, nColumnas) flota pistas pistas_filas pistas_cols matriz).

(** ** Per-target checks *)

(** [Objetivo.validar_limites] *)
Definition validar_limites (self : Objetivo) (tablero_obj : Tablero) : bool :=
  let '(filas_tablero, cols_tablero) := tamano_tablero tablero_obj in
  forallb
    (fun parte => dentro (fila parte) (columna parte) filas_tablero cols_tablero)
    (partes self).

(** [Objetivo.validar_integridad] *)
Definition validar_integridad (self : Objetivo) (tablero_obj : Tablero) : Py bool :=
  let '(filas_tablero, cols_tablero) := tamano_tablero tablero_obj in
  let matriz := matriz tablero_obj in
  todos
    (fun parte =>
       if negb (dentro (fila parte) (columna parte) filas_tablero cols_tablero)
       then mret false
       else
         v ← leer matriz (fila parte) (columna parte);
         if bool_decide (v <> tipo parte) then mret false else mret true)
    (partes self).

Definition deltas : list (Z * Z) :=
  [(-1, -1); (-1, 0); (-1, 1);
   (0, -1);           (0, 1);
   (1, -1);  (1, 0);  (1, 1)].

(** [Objetivo.validar_espaciado] *)
Definition validar_espaciado (self : Objetivo) (tablero_obj : Tablero) : Py bool :=
  let '(filas_tablero, cols_tablero) := tamano_tablero tablero_obj in
  let matriz := matriz tablero_obj in
  let mis_coordenadas : gset (Z * Z) :=
    list_to_set ((fun p => (fila p, columna p)) <$> partes self) in
  todos
    (fun parte =>
       if negb (dentro (fila parte) (columna parte) filas_tablero cols_tablero)
       then mret true
       else
         todos
           (fun '(df, dc) =>
              let vecino_f := fila parte + df in
              let vecino_c := columna parte + dc in
              if dentro vecino_f vecino_c filas_tablero cols_tablero then
                if bool_decide ((vecino_f, vecino_c) ∉ mis_coordenadas) then
                  v ← leer matriz vecino_f vecino_c;
                  if bool_decide (v <> Pieza.W) then mret false else mret true
                else mret true
              else mret true)
           deltas)
    (partes self).

(** [Objetivo.validar_restricciones] *)
Definition validar_restricciones (self : Objetivo) (tablero_obj : Tablero) : Py bool :=
  if negb (validar_limites self tablero_obj) then mret false
  else
    integridad ← validar_integridad self tablero_obj;
    if negb integridad then mret false
    else
      espaciado ← validar_espaciado self tablero_obj;
      if negb espaciado then mret false else mret true.

(** ** Board-level checks *)

(** [Tablero.validar_cuentas] *)
Definition validar_cuentas (self : Tablero) : Py bool :=
  let '(filas, cols) := tamano_tablero self in
  filas_bien ←
    todos
      (fun f =>
         suma_actual ←
           contar (fun c => v ← leer (matriz self) f c; mret (Pieza.es_barco v))
                  (range 0 cols);
         pista ← sin_acceso (getitem (pistas_filas self) f);
         if bool_decide (suma_actual <> pista) then mret false else mret true)
      (range 0 filas);
  if filas_bien : bool then
    todos
      (fun c =>
         suma_actual ←
           contar (fun f => v ← leer (matriz self) f c; mret (Pieza.es_barco v))
                  (range 0 filas);
         pista ← sin_acceso (getitem (pistas_cols self) c);
         if bool_decide (suma_actual <> pista) then mret false else mret true)
      (range 0 cols)
  else mret false.

(** [Tablero.validar_pistas] *)
Definition validar_pistas (self : Tablero) : Py bool :=
  todos
    (fun '(fila, columna, tipo) =>
       v ← leer (matriz self) fila columna;
       if bool_decide (v <> tipo) then mret false else mret true)
    (pistas self).

(** [Tablero.obtener_barcos_invalidos] *)
Definition obtener_barcos_invalidos (self : Tablero) : Py (list Objetivo) :=
  filtrar (fun barco => valido ← validar_restricciones barco self; mret (negb valido))
          (flota self).

(** ** Specification-side notions *)

(** The kind stored at row [f], column [c] of a matrix, for [f] and [c]
    that are not negative. *)
Definition tipo_en (m : list (list Pieza.t)) (f c : Z) : option Pieza.t :=
  fila_f ← m !! Z.to_nat f; fila_f !! Z.to_nat c.

(** A matrix with [filas] rows of [cols] cells each. *)
Definition rectangular (filas cols : Z) (m : list (list Pieza.t)) : Prop :=
  length m = Z.to_nat filas /\ Forall (fun fila_f => length fila_f = Z.to_nat cols) m.

(** The position a cell declares. *)
Definition posicion (x : Celda) : Posicion := (fila x, columna x).

(** A position inside a board of the given size. *)
Definition en_tablero (filas cols : Z) (p : Posicion) : Prop :=
  0 <= p.1 < filas /\ 0 <= p.2 < cols.

Global Instance en_tablero_dec filas cols p : Decision (en_tablero filas cols p).
Proof. unfold en_tablero. apply _. Defined.

(** The eight offsets of the Moore neighbourhood: every pair in
    {-1, 0, 1} x {-1, 0, 1} except (0, 0). *)
Definition vecino_moore (df dc : Z) : Prop :=
  -1 <= df <= 1 /\ -1 <= dc <= 1 /\ (df, dc) <> (0, 0).

(** The run of cells the specification describes for a ship of length
    [len >= 2]: the leading end marker at the anchor, [len - 2] middle
    cells, the trailing end marker, one step apart along the axis. *)
Definition corrida (len : Z) (d : Direccion) (r c : Z) : list Celda :=
  match d with
  | VERTICAL =>
      MkCelda r c Pieza.T
      :: ((fun i => MkCelda (r + i) c Pieza.M) <$> seqZ 1 (len - 2))
      ++ [MkCelda (r + len - 1) c Pieza.B]
  | HORIZONTAL =>
      MkCelda r c Pieza.L
      :: ((fun i => MkCelda r (c + i) Pieza.M) <$> seqZ 1 (len - 2))
      ++ [MkCelda r (c + len - 1) Pieza.R]
  end.

(** The cells a fleet declares, in fleet order and, within a target, in
    part order. *)
Definition celdas_declaradas (flota : list Objetivo) : list Celda :=
  flota ≫= partes.

(** The kind of the last cell of [celdas] that declares the position
    [(f, c)], when some cell does. *)
Definition ultimo_declarado (celdas : list Celda) (f c : Z) : option Pieza.t :=
  tipo <$> last (filter (fun x => posicion x = (f, c)) celdas).

(** What the specification asks the grid to hold at [(f, c)]: the kind of
    the last cell of the fleet that claims the position, and water when no
    cell claims it. *)
Definition pintado (flota : list Objetivo) (f c : Z) : Pieza.t :=
  default Pieza.W (ultimo_declarado (celdas_declaradas flota) f c).

(** Row [f] and column [c] of a matrix, as lists of kinds. *)
Definition fila_de (m : list (list Pieza.t)) (f : Z) : list Pieza.t :=
  default [] (m !! Z.to_nat f).

Definition columna_de (m : list (list Pieza.t)) (c : Z) : list Pieza.t :=
  omap (fun fila_f => fila_f !! Z.to_nat c) m.

(** The number of cells of a list of kinds that are ship material. *)
Definition barcos_en (l : list Pieza.t) : Z :=
  Z.of_nat (length (filter (fun v => v <> Pieza.W) l)).

(** The slot of a list of length [n] that the Python index [i] stands
    for: a negative index counts from the end. *)
Definition envuelve (n i : Z) : Z := if bool_decide (i < 0) then i + n else i.

(** The indices Python accepts for a list of length [n]. *)
Definition indice_valido (n i : Z) : Prop := - n <= i < n.

(** The outcome of an early-exit loop, read off the outcomes of its
    bodies: the first body that raises or answers false decides. *)
Fixpoint todos_resultado {A : Type} (cuerpo : A -> resultado bool) (l : list A)
    : resultado bool :=
  match l with
  | [] => Ok true
  | x :: l' =>
      match cuerpo x with
      | Ok true => todos_resultado cuerpo l'
      | Ok false => Ok false
      | Lanza e => Lanza e
      end
  end.

(** What one clue contributes to the clue-cell check on a matrix of
    [filas] rows and [cols] columns: [IndexError] when Python rejects the
    row or the column index, and otherwise whether the cell the indices
    stand for holds the asked kind. *)
Definition resultado_pista (filas cols : Z) (m : list (list Pieza.t))
    (p : Z * Z * Pieza.t) : resultado bool :=
  let '(f, c, t) := p in
  if decide (indice_valido filas f /\ indice_valido cols c)
  then Ok (bool_decide (tipo_en m (envuelve filas f) (envuelve cols c) = Some t))
  else Lanza IndexError.

(** What one row or column contributes to the count check: the
    comparison of its count with the clue at index [i], and [IndexError]
    when the clue list has no index [i] (for [i] not negative). *)
Definition resultado_cuenta (pistas_l : list Z) (cuenta : Z -> Z) (i : Z)
    : resultado bool :=
  match pistas_l !! Z.to_nat i with
  | Some p => Ok (bool_decide (cuenta i = p))
  | None => Lanza IndexError
  end.

(** The sum of a list of integers. *)
Definition suma (l : list Z) : Z := foldr Z.add 0 l.

(** * Properties *)

(** ** Python indexing *)

Section indexado.
Context {A : Type}.
Implicit Types (l : list A) (i : Z) (x : A).

Lemma py_indice_dentro l i :
  0 <= i < Z.of_nat (length l) -> py_indice l i = Ok (Z.to_nat i).
Proof.
  intros Hi. unfold py_indice. by rewrite bool_decide_eq_true_2.
Qed.

Lemma py_indice_menos_uno l :
  l <> [] -> py_indice l (-1) = Ok (Nat.pred (length l)).
Proof.
  intros Hl. unfold py_indice.
  assert (0 < length l)%nat by (destruct l; simpl; [done | lia]).
  rewrite bool_decide_eq_false_2 by lia.
  rewrite bool_decide_eq_true_2 by lia.
  f_equal. lia.
Qed.

Lemma getitem_dentro l i x :
  0 <= i -> l !! Z.to_nat i = Some x -> getitem l i = Ok x.
Proof.
  intros Hi Hx. unfold getitem.
  rewrite py_indice_dentro.
  - simpl. by rewrite Hx.
  - apply lookup_lt_Some in Hx. lia.
Qed.

Lemma setitem_dentro l i x :
  0 <= i < Z.of_nat (length l) -> setitem l i x = Ok (<[Z.to_nat i := x]> l).
Proof.
  intros Hi. unfold setitem. by rewrite py_indice_dentro.
Qed.

Lemma setitem_menos_uno l x :
  l <> [] -> setitem l (-1) x = Ok (<[Nat.pred (length l) := x]> l).
Proof.
  intros Hl. unfold setitem. by rewrite py_indice_menos_uno.
Qed.

Lemma getitem_fuera l i :
  Z.of_nat (length l) <= i -> getitem l i = Lanza IndexError.
Proof.
  intros Hi. unfold getitem, py_indice.
  by rewrite !bool_decide_eq_false_2 by lia.
Qed.

End indexado.

(** ** Ship geometry *)

Section geometria.
Variable g : Z -> Celda.

(** The middle loop of the builder: it fills the slots [a .. a + k - 1]
    and leaves the others as they were. *)
Lemma bucle_medio (k : nat) : forall (a : Z) (l : list (option Celda)),
  0 <= a -> a + Z.of_nat k <= Z.of_nat (length l) ->
  exists l',
    para_cada (fun partes i => setitem partes i (Some (g i)))
              (seqZ a (Z.of_nat k)) l = Ok l'
    /\ length l' = length l
    /\ forall j : nat,
         l' !! j = if bool_decide (a <= Z.of_nat j < a + Z.of_nat k)
                   then Some (Some (g (Z.of_nat j))) else l !! j.
Proof.
  induction k as [|k IH]; intros a l Ha Hk.
  - exists l. split; [done|]. split; [done|].
    intros j. by rewrite bool_decide_eq_false_2 by lia.
  - rewrite seqZ_cons by lia. cbn [para_cada].
    rewrite setitem_dentro by lia. cbn.
    replace (Z.pred (Z.of_nat (S k))) with (Z.of_nat k) by lia.
    destruct (IH (Z.succ a) (<[Z.to_nat a := Some (g a)]> l)) as (l' & Hrun & Hlen & Hget).
    { lia. }
    { rewrite length_insert. lia. }
    exists l'. split; [exact Hrun|]. split.
    { by rewrite Hlen, length_insert. }
    intros j. rewrite Hget.
    destruct (decide (Z.of_nat j = a)) as [<-|Hne].
    + rewrite bool_decide_eq_false_2 by lia.
      rewrite bool_decide_eq_true_2 by lia.
      rewrite Nat2Z.id. apply list_lookup_insert_eq. lia.
    + rewrite list_lookup_insert_ne by lia.
      repeat case_bool_decide; (done || lia).
Qed.

End geometria.

Section corrida.
Variables (x0 xl : Celda) (g : Z -> Celda) (len : Z).
Hypothesis Hlen : 2 <= len.

Lemma lookup_corrida (j : nat) :
  (x0 :: (g <$> seqZ 1 (len - 2)) ++ [xl]) !! j
  = if bool_decide (j = 0%nat) then Some x0
    else if bool_decide (1 <= Z.of_nat j < len - 1) then Some (g (Z.of_nat j))
    else if bool_decide (Z.of_nat j = len - 1) then Some xl
    else None.
Proof.
  destruct j as [|j]; [done|].
  rewrite bool_decide_eq_false_2 by done. simpl.
  assert (Hl : length (g <$> seqZ 1 (len - 2)) = Z.to_nat (len - 2))
    by (by rewrite length_fmap, length_seqZ).
  case_bool_decide.
  - rewrite lookup_app_l by lia.
    rewrite list_lookup_fmap, lookup_seqZ_lt by lia. simpl. do 2 f_equal. lia.
  - rewrite lookup_app_r by lia. rewrite Hl.
    case_bool_decide.
    + by replace (j - Z.to_nat (len - 2))%nat with 0%nat by lia.
    + destruct (j - Z.to_nat (len - 2))%nat as [|k] eqn:Hk; [lia | done].
Qed.

(** The three assignment steps of the builder, on a fresh list of [len]
    empty slots. *)
Lemma armar_corrida :
  (partes ← setitem (replicate (Z.to_nat len) (@None Celda)) 0 (Some x0);
   partes ← setitem partes (-1) (Some xl);
   para_cada (fun partes i => setitem partes i (Some (g i)))
             (range 1 (len - 1)) partes)
  = Ok (Some <$> x0 :: (g <$> seqZ 1 (len - 2)) ++ [xl]).
Proof.
  set (n := Z.to_nat len).
  set (esperado := fmap Some _).
  rewrite setitem_dentro by (rewrite length_replicate; lia). cbn.
  rewrite setitem_menos_uno; cycle 1.
  { intros Hnil. apply (f_equal length) in Hnil.
    rewrite length_insert, length_replicate in Hnil. simpl in Hnil. lia. }
  cbn. rewrite length_insert, length_replicate.
  unfold range. replace (len - 1 - 1) with (Z.of_nat (Z.to_nat (len - 2))) by lia.
  edestruct (bucle_medio g (Z.to_nat (len - 2)) 1) as (l' & -> & Hlen' & Hget).
  { lia. }
  { rewrite !length_insert, length_replicate. lia. }
  f_equal. apply list_eq. intros j. subst esperado.
  change (l' !! j = (Some <$> x0 :: (g <$> seqZ 1 (len - 2)) ++ [xl]) !! j).
  rewrite Hget, list_lookup_fmap, lookup_corrida.
  rewrite !length_insert, length_replicate in Hlen'.
  destruct (decide (j = 0%nat)) as [->|Hj0].
  { rewrite bool_decide_eq_false_2 by lia.
    rewrite list_lookup_insert_ne by lia.
    rewrite list_lookup_insert_eq by (rewrite length_replicate; lia).
    done. }
  rewrite (bool_decide_eq_false_2 (j = 0%nat)) by done.
  case_bool_decide as H1.
  { rewrite bool_decide_eq_true_2 by lia. done. }
  rewrite (bool_decide_eq_false_2 (1 <= Z.of_nat j < len - 1)) by lia.
  case_bool_decide as H2.
  { replace j with (Nat.pred n) by lia.
    rewrite list_lookup_insert_eq
      by (rewrite length_insert, length_replicate; lia).
    done. }
  rewrite !list_lookup_insert_ne by lia.
  simpl. apply lookup_replicate_None. lia.
Qed.

End corrida.

Lemma construir_partes_barco_largo (len : Z) (d : Direccion) (r c : Z) :
  2 <= len ->
  construir_partes_barco len d (r, c) = Ok (Some <$> corrida len d r c).
Proof.
  intros Hlen. destruct d; cbn [construir_partes_barco corrida];
    by rewrite armar_corrida.
Qed.

Lemma construir_partes_barco_uno (d : Direccion) (r c : Z) :
  construir_partes_barco 1 d (r, c)
  = Ok [Some (MkCelda r c match d with VERTICAL => Pieza.B | HORIZONTAL => Pieza.R end)].
Proof.
  destruct d.
  - transitivity (Ok (A := list (option Celda))
                     [Some (MkCelda (r + 1 - 1) c Pieza.B)]); [reflexivity|].
    by replace (r + 1 - 1) with r by lia.
  - transitivity (Ok (A := list (option Celda))
                     [Some (MkCelda r (c + 1 - 1) Pieza.R)]); [reflexivity|].
    by replace (c + 1 - 1) with c by lia.
Qed.

(** ** The board monad *)

Lemma valor_bind {A B} (m : Py A) (k : A -> Py B) :
  valor (m ≫= k) = valor m ≫= (fun a => valor (k a)).
Proof. unfold mbind at 1, Py_bind. by destruct (valor m). Qed.

Lemma accesos_bind {A B} (m : Py A) (k : A -> Py B) :
  accesos (m ≫= k)
  = match valor m with
    | Ok a => accesos m ++ accesos (k a)
    | Lanza _ => accesos m
    end.
Proof. unfold mbind, Py_bind. by destruct (valor m). Qed.

Lemma bind_corre {A B} (m : Py A) (k : A -> Py B) a :
  valor m = Ok a ->
  valor (m ≫= k) = valor (k a) /\ accesos (m ≫= k) = accesos m ++ accesos (k a).
Proof. intros Hm. by rewrite valor_bind, accesos_bind, Hm. Qed.

Section bucles.
Context {A : Type}.
Variable P : Posicion -> Prop.

(** An early-exit loop whose bodies all run to completion computes the
    conjunction of their answers, and touches only what they touch. *)
Lemma todos_corre (cuerpo : A -> Py bool) (g : A -> bool) (l : list A) :
  (forall x, x ∈ l -> valor (cuerpo x) = Ok (g x) /\ Forall P (accesos (cuerpo x))) ->
  valor (todos cuerpo l) = Ok (forallb g l) /\ Forall P (accesos (todos cuerpo l)).
Proof.
  induction l as [|x l IH]; intros Hl; [by split|].
  destruct (Hl x) as [Hx HPx]; [left|].
  destruct IH as [IHv IHa]; [intros y Hy; apply Hl; by right|].
  cbn [todos forallb].
  destruct (bind_corre (cuerpo x)
              (fun sigue : bool => if sigue then todos cuerpo l else mret false)
              _ Hx) as [-> ->].
  destruct (g x); simpl.
  - split; [done|]. by apply Forall_app.
  - split; [done|]. by rewrite app_nil_r.
Qed.

Lemma contar_corre (cond : A -> Py bool) (g : A -> bool) (l : list A) :
  (forall x, x ∈ l -> valor (cond x) = Ok (g x) /\ Forall P (accesos (cond x))) ->
  valor (contar cond l) = Ok (Z.of_nat (length (filter (fun x => g x = true) l)))
  /\ Forall P (accesos (contar cond l)).
Proof.
  induction l as [|x l IH]; intros Hl; [by split|].
  destruct (Hl x) as [Hx HPx]; [left|].
  destruct IH as [IHv IHa]; [intros y Hy; apply Hl; by right|].
  cbn [contar].
  destruct (bind_corre (cond x)
              (fun b : bool => n ← contar cond l; mret ((if b then 1 else 0) + n))
              _ Hx) as [-> ->].
  destruct (bind_corre (contar cond l)
              (fun n => mret ((if g x then 1 else 0) + n)) _ IHv) as [-> ->].
  split.
  - destruct (g x) eqn:Hg.
    + rewrite filter_cons_True by done. simpl. f_equal. lia.
    + rewrite filter_cons_False by (by rewrite Hg). simpl. f_equal.
  - rewrite app_nil_r. by apply Forall_app.
Qed.

End bucles.

(** A comprehension with a condition evaluates the condition on every
    element, in order. *)
Lemma filtrar_corre {A} (cond : A -> Py bool) (g : A -> bool) (l : list A) :
  (forall x, x ∈ l -> valor (cond x) = Ok (g x)) ->
  valor (filtrar cond l) = Ok (filter (fun x => g x = true) l)
  /\ accesos (filtrar cond l) = l ≫= (fun x => accesos (cond x)).
Proof.
  induction l as [|x l IH]; intros Hl; [by split|].
  assert (Hx : valor (cond x) = Ok (g x)) by (apply Hl; left).
  destruct IH as [IHv IHa]; [intros y Hy; apply Hl; by right|].
  cbn [filtrar].
  destruct (bind_corre (cond x)
              (fun b : bool => r ← filtrar cond l; mret (if b then x :: r else r))
              _ Hx) as [-> ->].
  destruct (bind_corre (filtrar cond l)
              (fun r => mret (if g x then x :: r else r)) _ IHv) as [-> ->].
  split.
  - destruct (g x) eqn:Hg.
    + by rewrite filter_cons_True by done.
    + by rewrite filter_cons_False by (by rewrite Hg).
  - cbn. by rewrite app_nil_r, IHa.
Qed.

(** ** Reading and writing the matrix *)

Lemma dentro_true f c filas cols :
  dentro f c filas cols = true <-> en_tablero filas cols (f, c).
Proof.
  unfold dentro, en_tablero. simpl.
  rewrite andb_true_iff, !bool_decide_eq_true. done.
Qed.

Lemma dentro_false f c filas cols :
  dentro f c filas cols = false <-> ~ en_tablero filas cols (f, c).
Proof.
  rewrite <- dentro_true. by destruct (dentro f c filas cols).
Qed.

Section matriz.
Variables filas cols : Z.
Implicit Types (m : list (list Pieza.t)) (f c : Z).

Lemma rectangular_fila m f :
  rectangular filas cols m -> 0 <= f < filas ->
  exists fila_f, m !! Z.to_nat f = Some fila_f /\ length fila_f = Z.to_nat cols.
Proof.
  intros [Hlen Hfilas] Hf.
  destruct (lookup_lt_is_Some_2 m (Z.to_nat f)) as [fila_f Hfila]; [lia|].
  exists fila_f. split; [done|].
  by apply (Forall_lookup_1 _ _ _ _ Hfilas Hfila).
Qed.

Lemma tipo_en_dentro m f c :
  rectangular filas cols m -> en_tablero filas cols (f, c) ->
  is_Some (tipo_en m f c).
Proof.
  intros Hm [Hf Hc]. simpl in *.
  destruct (rectangular_fila m f Hm Hf) as (fila_f & Hfila & Hlen).
  unfold tipo_en. rewrite Hfila. simpl.
  apply lookup_lt_is_Some_2. lia.
Qed.

Lemma leer_dentro m f c :
  rectangular filas cols m -> en_tablero filas cols (f, c) ->
  exists v, tipo_en m f c = Some v /\ leer m f c = MkPy (Ok v) [(f, c)].
Proof.
  intros Hm Hfc. destruct (tipo_en_dentro m f c Hm Hfc) as [v Hv].
  exists v. split; [done|].
  destruct Hfc as [Hf Hc]. simpl in *.
  unfold tipo_en in Hv.
  destruct (m !! Z.to_nat f) as [fila_f|] eqn:Hfila; [|done]. simpl in Hv.
  unfold leer. f_equal.
  rewrite (getitem_dentro m f fila_f) by (done || lia). simpl.
  apply getitem_dentro; [lia | done].
Qed.

Lemma escribir_dentro m f c v :
  rectangular filas cols m -> en_tablero filas cols (f, c) ->
  exists m',
    escribir m f c v = MkPy (Ok m') [(f, c)]
    /\ rectangular filas cols m'
    /\ forall f' c', 0 <= f' -> 0 <= c' ->
         tipo_en m' f' c'
         = if decide ((f', c') = (f, c)) then Some v else tipo_en m f' c'.
Proof.
  intros Hm [Hf Hc]. simpl in *.
  destruct (rectangular_fila m f Hm Hf) as (fila_f & Hfila & Hlen).
  destruct Hm as [Hfilas Hcols].
  exists (<[Z.to_nat f := <[Z.to_nat c := v]> fila_f]> m). split; [|split].
  - unfold escribir. f_equal.
    rewrite py_indice_dentro by lia. simpl. rewrite Hfila.
    rewrite setitem_dentro by lia. done.
  - split; [by rewrite length_insert|].
    apply Forall_insert; [done|]. by rewrite length_insert.
  - intros f' c' Hf' Hc'. unfold tipo_en.
    destruct (decide (Z.to_nat f' = Z.to_nat f)) as [Heq|Hne].
    + rewrite Heq, list_lookup_insert_eq by lia. simpl.
      destruct (decide (Z.to_nat c' = Z.to_nat c)) as [Heqc|Hnec].
      * rewrite Heqc, list_lookup_insert_eq by lia.
        rewrite decide_True; [done|]. f_equal; lia.
      * rewrite list_lookup_insert_ne by done.
        rewrite decide_False by (intros [= ? ?]; lia).
        by rewrite Hfila.
    + rewrite list_lookup_insert_ne by done.
      rewrite decide_False by (intros [= ? ?]; lia). done.
Qed.

End matriz.

(** ** Painting the grid *)

Lemma ultimo_declarado_app l1 l2 f c :
  ultimo_declarado (l1 ++ l2) f c
  = match ultimo_declarado l2 f c with
    | Some k => Some k
    | None => ultimo_declarado l1 f c
    end.
Proof.
  unfold ultimo_declarado. rewrite filter_app, last_app.
  by destruct (last (filter _ l2)).
Qed.

Lemma ultimo_declarado_uno x f c :
  ultimo_declarado [x] f c
  = if decide (posicion x = (f, c)) then Some (tipo x) else None.
Proof.
  unfold ultimo_declarado. rewrite filter_cons, filter_nil. by case_decide.
Qed.

Lemma Py_bind_MkPy {A B} (a : A) (t : list Posicion) (k : A -> Py B) :
  MkPy (Ok a) t ≫= k = MkPy (valor (k a)) (t ++ accesos (k a)).
Proof. reflexivity. Qed.

Section pintar.
Variables filas cols : Z.

(* The body of the inner loop, with its two local names inlined. *)
Local Abbreviation pintar_celda :=
  (fun (matriz : list (list Pieza.t)) (celda : Celda) =>
     if dentro (fila celda) (columna celda) filas cols
     then escribir matriz (fila celda) (columna celda) (tipo celda)
     else mret matriz).

Local Abbreviation pintadas celdas :=
  (posicion <$> filter (fun x => en_tablero filas cols (posicion x)) celdas).

Local Abbreviation encima celdas m f c :=
  (match ultimo_declarado celdas f c with
   | Some k => Some k
   | None => tipo_en m f c
   end).

(** The inner loop of [construir_matriz], over the cells of one target. *)
Lemma pintar_partes (celdas : list Celda) : forall m,
  rectangular filas cols m ->
  exists m',
    para_cada pintar_celda celdas m = MkPy (Ok m') (pintadas celdas)
    /\ rectangular filas cols m'
    /\ forall f c, en_tablero filas cols (f, c) ->
         tipo_en m' f c = encima celdas m f c.
Proof.
  induction celdas as [|x xs IH]; intros m Hm.
  { exists m. split; [reflexivity|]. split; [exact Hm|]. reflexivity. }
  cbn [para_cada].
  destruct (dentro (fila x) (columna x) filas cols) eqn:Hx.
  - apply dentro_true in Hx.
    destruct (escribir_dentro filas cols m _ _ (tipo x) Hm Hx)
      as (m1 & -> & Hm1 & Hget1).
    destruct (IH m1 Hm1) as (m' & Hrun & Hm' & Hget).
    exists m'. rewrite Py_bind_MkPy, Hrun. split; [|split; [done|]].
    + by rewrite filter_cons_True by done.
    + intros f c Hfc. rewrite (Hget f c Hfc).
      change (x :: xs) with ([x] ++ xs).
      rewrite ultimo_declarado_app, ultimo_declarado_uno.
      destruct (ultimo_declarado xs f c); [done|].
      destruct Hfc as [Hf Hc]. simpl in Hf, Hc.
      rewrite Hget1 by lia. unfold posicion.
      repeat case_decide; congruence.
  - apply dentro_false in Hx.
    destruct (IH m Hm) as (m' & Hrun & Hm' & Hget).
    exists m'.
    change (mret m ≫= _) with (MkPy (Ok m) [] ≫= fun s' => para_cada pintar_celda xs s').
    rewrite Py_bind_MkPy, Hrun. split; [|split; [done|]].
    + by rewrite filter_cons_False by done.
    + intros f c Hfc. rewrite (Hget f c Hfc).
      change (x :: xs) with ([x] ++ xs).
      rewrite ultimo_declarado_app, ultimo_declarado_uno.
      destruct (ultimo_declarado xs f c); [done|].
      rewrite decide_False; [done|].
      intros Heq. apply Hx. unfold posicion in Heq. by rewrite Heq.
Qed.

(** The outer loop, over the targets of the fleet. *)
Lemma pintar_flota (flota : list Objetivo) : forall m,
  rectangular filas cols m ->
  exists m',
    para_cada (fun matriz obj => para_cada pintar_celda (partes obj) matriz) flota m
    = MkPy (Ok m') (pintadas (celdas_declaradas flota))
    /\ rectangular filas cols m'
    /\ forall f c, en_tablero filas cols (f, c) ->
         tipo_en m' f c = encima (celdas_declaradas flota) m f c.
Proof.
  induction flota as [|obj flota IH]; intros m Hm.
  { exists m. split; [reflexivity|]. split; [exact Hm|]. reflexivity. }
  cbn [para_cada].
  destruct (pintar_partes (partes obj) m Hm) as (m1 & -> & Hm1 & Hget1).
  destruct (IH m1 Hm1) as (m' & Hrun & Hm' & Hget).
  exists m'. rewrite Py_bind_MkPy, Hrun. split; [|split; [done|]].
  - unfold celdas_declaradas. cbn [mbind list_bind list.foldr].
    by rewrite filter_app, fmap_app.
  - intros f c Hfc. rewrite (Hget f c Hfc).
    unfold celdas_declaradas. cbn [mbind list_bind].
    rewrite ultimo_declarado_app.
    destruct (ultimo_declarado (flota ≫= partes) f c); [done|].
    by apply Hget1.
Qed.

Lemma matriz_inicial :
  let m := (fun _ : Z => (fun _ : Z => Pieza.W) <$> range 0 cols) <$> range 0 filas in
  rectangular filas cols m
  /\ forall f c, en_tablero filas cols (f, c) -> tipo_en m f c = Some Pieza.W.
Proof.
  intros m. subst m. unfold range. split; [split|].
  - rewrite length_fmap, length_seqZ. f_equal. lia.
  - apply Forall_fmap, Forall_forall. intros i _. simpl.
    rewrite length_fmap, length_seqZ. f_equal. lia.
  - intros f c [Hf Hc]. simpl in Hf, Hc. unfold tipo_en.
    rewrite list_lookup_fmap, lookup_seqZ_lt by lia. simpl.
    rewrite list_lookup_fmap, lookup_seqZ_lt by lia. done.
Qed.

Lemma construir_matriz_corre (flota : list Objetivo) :
  exists m,
    construir_matriz (filas, cols) flota
    = MkPy (Ok m) (pintadas (celdas_declaradas flota))
    /\ rectangular filas cols m
    /\ forall f c, en_tablero filas cols (f, c) ->
         tipo_en m f c = Some (pintado flota f c).
Proof.
  destruct matriz_inicial as [Hm0 Hw].
  destruct (pintar_flota flota _ Hm0) as (m & Hrun & Hm & Hget).
  exists m. split; [exact Hrun|]. split; [done|].
  intros f c Hfc. rewrite (Hget f c Hfc), (Hw f c Hfc).
  unfold pintado. by destruct (ultimo_declarado _ f c).
Qed.

End pintar.

(** ** A board built by the constructor *)

Lemma Tablero_init_corre nF nC fl ps pf pc :
  exists m,
    Tablero_init nF nC fl ps pf pc
    = MkPy (Ok (MkTablero (nF, nC) fl ps pf pc m))
           (posicion <$> filter (fun x => en_tablero nF nC (posicion x))
                                (celdas_declaradas fl))
    /\ rectangular nF nC m
    /\ forall f c, en_tablero nF nC (f, c) -> tipo_en m f c = Some (pintado fl f c).
Proof.
  destruct (construir_matriz_corre nF nC fl) as (m & Hrun & Hm & Hget).
  exists m. split; [|done].
  unfold Tablero_init. rewrite Hrun, Py_bind_MkPy. simpl. by rewrite app_nil_r.
Qed.

Lemma Tablero_init_inv nF nC fl ps pf pc tab :
  valor (Tablero_init nF nC fl ps pf pc) = Ok tab ->
  tamano_tablero tab = (nF, nC)
  /\ flota tab = fl /\ pistas tab = ps
  /\ pistas_filas tab = pf /\ pistas_cols tab = pc
  /\ rectangular nF nC (matriz tab)
  /\ forall f c, en_tablero nF nC (f, c) ->
       tipo_en (matriz tab) f c = Some (pintado fl f c).
Proof.
  destruct (Tablero_init_corre nF nC fl ps pf pc) as (m & -> & Hm & Hget).
  simpl. intros [= <-]. simpl.
  do 5 (split; [reflexivity|]). split; [exact Hm | exact Hget].
Qed.

(** ** The per-target checks on a rectangular board *)

(** Closes [Forall P [p]] for the single position a read touched, from a
    hypothesis [P p]. *)
Ltac un_acceso := simpl; constructor; [assumption | constructor].

Section validadores.
Variables (tab : Tablero) (filas cols : Z).
Hypothesis Htam : tamano_tablero tab = (filas, cols).
Hypothesis Hrect : rectangular filas cols (matriz tab).

Lemma validar_limites_eq (self : Objetivo) :
  validar_limites self tab
  = forallb (fun x => bool_decide (en_tablero filas cols (posicion x))) (partes self).
Proof.
  unfold validar_limites. rewrite Htam.
  induction (partes self) as [|x xs IH]; [done|]. simpl. rewrite IH. f_equal.
  destruct (dentro (fila x) (columna x) filas cols) eqn:Hx; symmetry.
  - apply bool_decide_eq_true, dentro_true, Hx.
  - apply bool_decide_eq_false, dentro_false, Hx.
Qed.

Lemma validar_integridad_corre (self : Objetivo) :
  valor (validar_integridad self tab)
  = Ok (forallb
          (fun x => bool_decide (en_tablero filas cols (posicion x))
                    && bool_decide (tipo_en (matriz tab) (fila x) (columna x)
                                    = Some (tipo x)))
          (partes self))
  /\ Forall (en_tablero filas cols) (accesos (validar_integridad self tab)).
Proof.
  unfold validar_integridad. rewrite Htam.
  apply todos_corre. intros x _.
  destruct (dentro (fila x) (columna x) filas cols) eqn:Hx; cbn [negb].
  - apply dentro_true in Hx.
    destruct (leer_dentro filas cols _ _ _ Hrect Hx) as (v & Hv & ->).
    rewrite Py_bind_MkPy, Hv.
    rewrite (bool_decide_eq_true_2 _ Hx). simpl.
    destruct (decide (v = tipo x)) as [->|Hne].
    + rewrite (bool_decide_eq_false_2 (_ <> _)) by (intros H; by apply H).
      rewrite bool_decide_eq_true_2 by done.
      split; [done | un_acceso].
    + rewrite (bool_decide_eq_true_2 (_ <> _)) by done.
      rewrite bool_decide_eq_false_2 by congruence.
      split; [done | un_acceso].
  - apply dentro_false in Hx.
    by rewrite (bool_decide_eq_false_2 _ Hx).
Qed.

Lemma validar_espaciado_corre (self : Objetivo) :
  valor (validar_espaciado self tab)
  = Ok (forallb
          (fun x =>
             negb (bool_decide (en_tablero filas cols (posicion x)))
             || forallb
                  (fun d : Z * Z =>
                     negb (bool_decide (en_tablero filas cols
                                          (fila x + d.1, columna x + d.2)))
                     || negb (bool_decide ((fila x + d.1, columna x + d.2)
                                           ∉ posicion <$> partes self))
                     || bool_decide (tipo_en (matriz tab) (fila x + d.1) (columna x + d.2)
                                     = Some Pieza.W))
                  deltas)
          (partes self))
  /\ Forall (en_tablero filas cols) (accesos (validar_espaciado self tab)).
Proof.
  unfold validar_espaciado. rewrite Htam.
  apply todos_corre. intros x _.
  destruct (dentro (fila x) (columna x) filas cols) eqn:Hx; simpl negb; cbv iota.
  - apply dentro_true in Hx. rewrite (bool_decide_eq_true_2 _ Hx). simpl negb.
    rewrite orb_false_l.
    apply todos_corre. intros [df dc] _. cbv zeta. simpl fst. simpl snd.
    destruct (dentro (fila x + df) (columna x + dc) filas cols) eqn:Hv.
    + apply dentro_true in Hv. rewrite (bool_decide_eq_true_2 _ Hv).
      simpl negb. rewrite orb_false_l.
      case_bool_decide as Hmio.
      * rewrite elem_of_list_to_set in Hmio.
        rewrite (bool_decide_eq_true_2 _ Hmio). simpl negb. rewrite orb_false_l.
        destruct (leer_dentro filas cols _ _ _ Hrect Hv) as (v & Htv & ->).
        rewrite Py_bind_MkPy, Htv. simpl.
        destruct (decide (v = Pieza.W)) as [->|Hne].
        -- rewrite (bool_decide_eq_false_2 (_ <> _)) by (intros H; by apply H).
           rewrite bool_decide_eq_true_2 by done.
           split; [done | un_acceso].
        -- rewrite (bool_decide_eq_true_2 (_ <> _)) by done.
           rewrite bool_decide_eq_false_2 by congruence.
           split; [done | un_acceso].
      * rewrite elem_of_list_to_set in Hmio.
        rewrite (bool_decide_eq_false_2 (_ ∉ _)) by (intros H; by apply H).
        by split.
    + apply dentro_false in Hv. rewrite (bool_decide_eq_false_2 _ Hv). by split.
  - apply dentro_false in Hx. rewrite (bool_decide_eq_false_2 _ Hx). by split.
Qed.

End validadores.

(** ** The geometry builder *)

Lemma mapM_id_Some {A} (l : list A) : mapM id (Some <$> l) = Some l.
Proof. apply mapM_fmap_Forall_Some, Forall_forall. done. Qed.

Lemma length_corrida len d r c : 2 <= len -> length (corrida len d r c) = Z.to_nat len.
Proof.
  intros Hlen. destruct d; simpl;
    rewrite length_app, length_fmap, length_seqZ; simpl; lia.
Qed.

Lemma Barco_init_uno (d : Direccion) (r c : Z) :
  Barco_init (r, c) 1 d
  = Ok (MkBarco 1 d
          (MkObjetivo (r, c)
             [MkCelda r c match d with VERTICAL => Pieza.B | HORIZONTAL => Pieza.R end])).
Proof. unfold Barco_init. by rewrite construir_partes_barco_uno. Qed.

Lemma Barco_init_largo (len : Z) (d : Direccion) (r c : Z) :
  2 <= len ->
  Barco_init (r, c) len d = Ok (MkBarco len d (MkObjetivo (r, c) (corrida len d r c))).
Proof.
  intros Hlen. unfold Barco_init.
  rewrite construir_partes_barco_largo by done. simpl. by rewrite mapM_id_Some.
Qed.

(** What the builder does for length 1, at any anchor and orientation.
    The list has one slot, so the assignment to slot [-1] lands on slot
    [0] and replaces the leading end marker: the only cell, at the anchor,
    has the trailing end kind, bottom end for vertical and right end for
    horizontal.  The builder has no case for length 1; the submarine kind
    comes from the [Submarino] constructor alone. *)
Theorem barco_de_longitud_uno (d : Direccion) (r c : Z) :
  let final := match d with VERTICAL => Pieza.B | HORIZONTAL => Pieza.R end in
  construir_partes_barco 1 d (r, c) = Ok [Some (MkCelda r c final)]
  /\ Barco_init (r, c) 1 d = Ok (MkBarco 1 d (MkObjetivo (r, c) [MkCelda r c final]))
  /\ partes (Submarino (r, c)) = [MkCelda r c Pieza.C].
Proof.
  intros final. split; [apply construir_partes_barco_uno|]. split; [|done].
  apply Barco_init_uno.
Qed.

(** C1, the code at the failing input.  The claim asks that a ship of
    length 1 get one cell of the submarine kind at the anchor, the same for
    both orientations.  The vertical ship of length 1 anchored at (2, 5) is
    built without error and its only cell, at the anchor, has the
    bottom-end kind; the horizontal one has the right-end kind.  Neither
    is the submarine cell, and the two differ. *)
Lemma barco_de_longitud_uno_no_es_submarino :
  construir_partes_barco 1 VERTICAL (2, 5) = Ok [Some (MkCelda 2 5 Pieza.B)]
  /\ construir_partes_barco 1 HORIZONTAL (2, 5) = Ok [Some (MkCelda 2 5 Pieza.R)]
  /\ Barco_init (2, 5) 1 VERTICAL
     = Ok (MkBarco 1 VERTICAL (MkObjetivo (2, 5) [MkCelda 2 5 Pieza.B]))
  /\ MkCelda 2 5 Pieza.B <> MkCelda 2 5 Pieza.C
  /\ MkCelda 2 5 Pieza.R <> MkCelda 2 5 Pieza.C.
Proof. repeat split; (reflexivity || discriminate). Qed.

(** C8.  For a ship of length [len >= 2] anchored at [(r, c)], the builder
    returns exactly [len] cells and leaves no slot empty.  Vertical: the
    first cell is the top end at [(r, c)], the last is the bottom end at
    [(r + len - 1, c)], and cell [i], for [1 <= i <= len - 2], is a middle
    at [(r + i, c)].  Horizontal: left end at [(r, c)], right end at
    [(r, c + len - 1)], middles at [(r, c + i)].  [Barco.__init__] stores
    these cells as the target's parts. *)
Theorem barco_de_longitud_mayor (len : Z) (d : Direccion) (r c : Z) :
  2 <= len ->
  exists celdas : list Celda,
    construir_partes_barco len d (r, c) = Ok (Some <$> celdas)
    /\ Barco_init (r, c) len d = Ok (MkBarco len d (MkObjetivo (r, c) celdas))
    /\ length celdas = Z.to_nat len
    /\ celdas !! 0%nat
       = Some (MkCelda r c match d with VERTICAL => Pieza.T | HORIZONTAL => Pieza.L end)
    /\ celdas !! Z.to_nat (len - 1)
       = Some match d with
              | VERTICAL => MkCelda (r + len - 1) c Pieza.B
              | HORIZONTAL => MkCelda r (c + len - 1) Pieza.R
              end
    /\ forall i, 1 <= i <= len - 2 ->
         celdas !! Z.to_nat i
         = Some match d with
                | VERTICAL => MkCelda (r + i) c Pieza.M
                | HORIZONTAL => MkCelda r (c + i) Pieza.M
                end.
Proof.
  intros Hlen. exists (corrida len d r c).
  pose proof (construir_partes_barco_largo len d r c Hlen) as Hrun.
  split; [exact Hrun|]. split; [by apply Barco_init_largo|].
  split; [by apply length_corrida|].
  split; [by destruct d|].
  split.
  - destruct d; unfold corrida; rewrite lookup_corrida by done;
      rewrite bool_decide_eq_false_2 by lia;
      rewrite bool_decide_eq_false_2 by lia;
      by rewrite bool_decide_eq_true_2 by lia.
  - intros i Hi.
    destruct d; unfold corrida; rewrite lookup_corrida by done;
      rewrite bool_decide_eq_false_2 by lia;
      rewrite bool_decide_eq_true_2 by lia;
      by rewrite Z2Nat.id by lia.
Qed.

(** C8 at the vertical ship of length 3 anchored at (2, 5). *)
Lemma barco_de_longitud_mayor_witness :
  2 <= 3
  /\ exists celdas : list Celda,
       construir_partes_barco 3 VERTICAL (2, 5) = Ok (Some <$> celdas)
       /\ length celdas = 3%nat
       /\ celdas !! 0%nat = Some (MkCelda 2 5 Pieza.T)
       /\ celdas !! 2%nat = Some (MkCelda 4 5 Pieza.B)
       /\ celdas !! 1%nat = Some (MkCelda 3 5 Pieza.M).
Proof.
  split; [lia|].
  destruct (barco_de_longitud_mayor 3 VERTICAL 2 5) as (celdas & H1 & _ & H2 & H3 & H4 & H5);
    [lia|].
  exists celdas. split; [exact H1|]. split; [exact H2|]. split; [exact H3|].
  split; [exact H4|]. apply (H5 1). lia.
Defined.

(** ** Grid construction *)

Lemma ultimo_declarado_None celdas f c :
  (forall y, y ∈ celdas -> posicion y <> (f, c)) ->
  ultimo_declarado celdas f c = None.
Proof.
  intros Hno. unfold ultimo_declarado.
  destruct (last (filter _ celdas)) as [w|] eqn:Hw; [|done].
  apply last_Some_elem_of, list_elem_of_filter in Hw as [Hpos Hin].
  by destruct (Hno w Hin).
Qed.

Lemma ultimo_declarado_Some celdas f c z :
  z ∈ celdas -> posicion z = (f, c) ->
  (forall y, y ∈ celdas -> posicion y = (f, c) -> tipo y = tipo z) ->
  ultimo_declarado celdas f c = Some (tipo z).
Proof.
  intros Hz Hpos Hsame. unfold ultimo_declarado.
  destruct (last (filter (fun x => posicion x = (f, c)) celdas)) as [w|] eqn:Hw.
  - apply last_Some_elem_of, list_elem_of_filter in Hw as [Hposw Hin].
    simpl. f_equal. by apply Hsame.
  - apply last_None in Hw.
    destruct (filter_nil_not_elem_of _ _ z Hw Hpos Hz).
Qed.

Lemma ultimo_declarado_ultimo pre x post f c :
  posicion x = (f, c) ->
  (forall y, y ∈ post -> posicion y <> (f, c)) ->
  ultimo_declarado (pre ++ x :: post) f c = Some (tipo x).
Proof.
  intros Hx Hpost. change (x :: post) with ([x] ++ post).
  rewrite !ultimo_declarado_app, (ultimo_declarado_None post) by done.
  rewrite ultimo_declarado_uno. by rewrite decide_True.
Qed.

(** C4.  For positive dimensions and any fleet, [construir_matriz] returns
    without raising.  The matrix has [filas] rows of [cols] cells.  Every
    position inside the bounds holds the kind of the last cell, in fleet
    order and then part order, that declares that position, and water when
    no declared cell does.  The positions written are those of the declared
    cells that lie inside the bounds, in order: a cell outside the bounds
    is skipped. *)
Theorem construir_matriz_correcta (filas cols : Z) (flota : list Objetivo) :
  0 < filas -> 0 < cols ->
  exists m,
    construir_matriz (filas, cols) flota
    = MkPy (Ok m)
           (posicion <$> filter (fun x => en_tablero filas cols (posicion x))
                                (celdas_declaradas flota))
    /\ rectangular filas cols m
    /\ forall f c, 0 <= f < filas -> 0 <= c < cols ->
         (forall pre x post,
            celdas_declaradas flota = pre ++ x :: post ->
            posicion x = (f, c) ->
            (forall y, y ∈ post -> posicion y <> (f, c)) ->
            tipo_en m f c = Some (tipo x))
         /\ ((forall y, y ∈ celdas_declaradas flota -> posicion y <> (f, c)) ->
             tipo_en m f c = Some Pieza.W).
Proof.
  intros _ _.
  destruct (construir_matriz_corre filas cols flota) as (m & Hrun & Hm & Hget).
  exists m. split; [exact Hrun|]. split; [exact Hm|].
  intros f c Hf Hc.
  assert (Hfc : en_tablero filas cols (f, c)) by done.
  rewrite (Hget f c Hfc). unfold pintado. split.
  - intros pre x post -> Hx Hpost.
    by rewrite (ultimo_declarado_ultimo pre x post f c Hx Hpost).
  - intros Hno. by rewrite (ultimo_declarado_None _ f c Hno).
Qed.

(** C4 on a 2 x 2 board: a two-cell ship, a submarine outside the board,
    which is skipped, and a submarine painted over the ship's bottom end. *)
Lemma construir_matriz_correcta_witness :
  0 < 2 /\ 0 < 2
  /\ exists m,
       construir_matriz (2, 2)
         [MkObjetivo (0, 0) [MkCelda 0 0 Pieza.T; MkCelda 1 0 Pieza.B];
          Submarino (5, 5); Submarino (1, 0)]
       = MkPy (Ok m) [(0, 0); (1, 0); (1, 0)]
       /\ rectangular 2 2 m
       /\ m = [[Pieza.T; Pieza.W]; [Pieza.C; Pieza.W]].
Proof.
  split; [lia|]. split; [lia|].
  destruct (construir_matriz_correcta 2 2
              [MkObjetivo (0, 0) [MkCelda 0 0 Pieza.T; MkCelda 1 0 Pieza.B];
               Submarino (5, 5); Submarino (1, 0)])
    as (m & Hrun & Hm & _); [lia | lia |].
  exists m. split; [exact Hrun|]. split; [exact Hm|].
  vm_compute in Hrun. by injection Hrun as <-.
Defined.

(** ** The per-target checks on a constructed board *)

Lemma forallb_elem_of {A} (g : A -> bool) (l : list A) :
  forallb g l = true <-> forall x, x ∈ l -> g x = true.
Proof.
  rewrite forallb_forall. by setoid_rewrite list_elem_of_In.
Qed.

Lemma deltas_moore df dc : (df, dc) ∈ deltas <-> vecino_moore df dc.
Proof.
  unfold deltas, vecino_moore. rewrite !elem_of_cons, elem_of_nil. split.
  - intros H. repeat destruct H as [H|H]; try done;
      simplify_eq; (split; [lia|]; split; [lia|]; discriminate).
  - intros (Hdf & Hdc & Hne).
    assert (df = -1 \/ df = 0 \/ df = 1) as [-> | [-> | ->]] by lia;
      assert (dc = -1 \/ dc = 0 \/ dc = 1) as [-> | [-> | ->]] by lia;
      tauto.
Qed.

(** C5.  On the board the constructor returns, [validar_integridad] of any
    target returns a boolean without raising, and every matrix position it
    reads lies inside the bounds.  If some declared cell is outside the
    bounds the answer is false; in particular a target that fails
    [validar_limites] fails it.  If all declared cells are inside the
    bounds, the answer is true exactly when the matrix holds, at every
    declared cell's position, the cell's declared kind. *)
Theorem validar_integridad_correcta nF nC fl ps pf pc :
  exists tab,
    valor (Tablero_init nF nC fl ps pf pc) = Ok tab
    /\ forall self : Objetivo,
         exists b : bool,
           valor (validar_integridad self tab) = Ok b
           /\ Forall (en_tablero nF nC) (accesos (validar_integridad self tab))
           /\ ((exists x, x ∈ partes self /\ ~ en_tablero nF nC (posicion x)) ->
               b = false)
           /\ (validar_limites self tab = false -> b = false)
           /\ ((forall x, x ∈ partes self -> en_tablero nF nC (posicion x)) ->
               (b = true <->
                forall x, x ∈ partes self ->
                  tipo_en (matriz tab) (fila x) (columna x) = Some (tipo x))).
Proof.
  destruct (Tablero_init_corre nF nC fl ps pf pc) as (m & Hrun & Hm & _).
  set (tab := MkTablero (nF, nC) fl ps pf pc m) in *.
  exists tab. split; [by rewrite Hrun|].
  intros self.
  destruct (validar_integridad_corre tab nF nC eq_refl Hm self) as [Hv Ha].
  eexists. split; [exact Hv|]. split; [exact Ha|].
  split; [|split].
  - intros (x & Hx & Hfuera). apply not_true_is_false. intros Hb.
    rewrite forallb_elem_of in Hb. specialize (Hb x Hx).
    apply andb_true_iff in Hb as [Hb _]. by apply bool_decide_eq_true in Hb.
  - rewrite (validar_limites_eq tab nF nC eq_refl). intros Hlim.
    apply not_true_is_false. intros Hb.
    rewrite forallb_elem_of in Hb.
    assert (forallb (fun x => bool_decide (en_tablero nF nC (posicion x)))
                    (partes self) = true) as Hlim'; [|congruence].
    apply forallb_elem_of. intros x Hx. specialize (Hb x Hx).
    by apply andb_true_iff in Hb as [Hb _].
  - intros Hdentro. rewrite forallb_elem_of. split.
    + intros Hb x Hx. specialize (Hb x Hx).
      apply andb_true_iff in Hb as [_ Hb]. by apply bool_decide_eq_true in Hb.
    + intros Hb x Hx. apply andb_true_iff.
      split; apply bool_decide_eq_true; [by apply Hdentro | by apply Hb].
Qed.

(** C5 on a 2 x 2 board where a two-cell ship is painted over the submarine
    at (0, 0): the submarine fails the integrity check, and so does a
    submarine placed outside the board. *)
Lemma validar_integridad_correcta_witness :
  exists tab,
    valor (Tablero_init 2 2
             [Submarino (0, 0);
              MkObjetivo (0, 0) [MkCelda 0 0 Pieza.T; MkCelda 1 0 Pieza.B]]
             [] [1; 1] [2; 0]) = Ok tab
    /\ valor (validar_integridad (Submarino (0, 0)) tab) = Ok false
    /\ valor (validar_integridad (Submarino (5, 5)) tab) = Ok false.
Proof.
  destruct (validar_integridad_correcta 2 2
              [Submarino (0, 0);
               MkObjetivo (0, 0) [MkCelda 0 0 Pieza.T; MkCelda 1 0 Pieza.B]]
              [] [1; 1] [2; 0]) as (tab & Htab & H).
  exists tab. split; [exact Htab|].
  vm_compute in Htab. injection Htab as <-. split.
  - destruct (H (Submarino (0, 0))) as (b & Hb & _ & _ & _ & Hiff).
    destruct b; [exfalso | exact Hb].
    assert (Hdentro : forall x, x ∈ partes (Submarino (0, 0)) ->
                                en_tablero 2 2 (posicion x)).
    { intros x Hx. apply list_elem_of_In in Hx.
      destruct Hx as [<-|[]]. unfold en_tablero. simpl. lia. }
    pose proof (proj1 (Hiff Hdentro) eq_refl (MkCelda 0 0 Pieza.C)) as Hno.
    discriminate Hno. left.
  - destruct (H (Submarino (5, 5))) as (b & Hb & _ & Hfuera & _).
    rewrite Hb. f_equal. apply Hfuera.
    exists (MkCelda 5 5 Pieza.C). split; [left|].
    unfold en_tablero. simpl. lia.
Defined.

(** C6.  On the board the constructor returns, [validar_espaciado] of any
    target returns a boolean without raising and reads only positions
    inside the bounds.  The answer is true exactly when, for every declared
    cell inside the bounds and every one of the eight Moore offsets, the
    neighbour, if it is inside the bounds and is not one of the target's
    own declared positions, holds water.  Declared cells outside the
    bounds and neighbours outside the bounds impose nothing. *)
Theorem validar_espaciado_correcta nF nC fl ps pf pc :
  exists tab,
    valor (Tablero_init nF nC fl ps pf pc) = Ok tab
    /\ forall self : Objetivo,
         exists b : bool,
           valor (validar_espaciado self tab) = Ok b
           /\ Forall (en_tablero nF nC) (accesos (validar_espaciado self tab))
           /\ (b = true <->
               forall x, x ∈ partes self -> en_tablero nF nC (posicion x) ->
               forall df dc, vecino_moore df dc ->
                 en_tablero nF nC (fila x + df, columna x + dc) ->
                 (fila x + df, columna x + dc) ∉ posicion <$> partes self ->
                 tipo_en (matriz tab) (fila x + df) (columna x + dc) = Some Pieza.W).
Proof.
  destruct (Tablero_init_corre nF nC fl ps pf pc) as (m & Hrun & Hm & _).
  set (tab := MkTablero (nF, nC) fl ps pf pc m) in *.
  exists tab. split; [by rewrite Hrun|].
  intros self.
  destruct (validar_espaciado_corre tab nF nC eq_refl Hm self) as [Hv Ha].
  eexists. split; [exact Hv|]. split; [exact Ha|].
  rewrite forallb_elem_of. split.
  - intros Hb x Hx Hdentro df dc Hmoore Hvecino Hajeno.
    specialize (Hb x Hx).
    rewrite (bool_decide_eq_true_2 _ Hdentro) in Hb. cbn [negb orb] in Hb.
    rewrite forallb_elem_of in Hb.
    specialize (Hb (df, dc) (proj2 (deltas_moore df dc) Hmoore)).
    cbn [fst snd] in Hb.
    rewrite (bool_decide_eq_true_2 _ Hvecino) in Hb.
    rewrite (bool_decide_eq_true_2 _ Hajeno) in Hb. cbn [negb orb] in Hb.
    by apply bool_decide_eq_true in Hb.
  - intros Hb x Hx.
    case_bool_decide as Hdentro; [cbn [negb orb]|done].
    apply forallb_elem_of. intros [df dc] Hd. cbn [fst snd].
    case_bool_decide as Hvecino; [cbn [negb orb]|done].
    case_bool_decide as Hajeno; [cbn [negb orb]|done].
    apply bool_decide_eq_true.
    by apply (Hb x Hx Hdentro df dc (proj1 (deltas_moore df dc) Hd)).
Qed.

(** C6 on a 3 x 3 board with two submarines that touch at a corner: the
    one at (0, 0) fails the spacing check. *)
Lemma validar_espaciado_correcta_witness :
  exists tab,
    valor (Tablero_init 3 3 [Submarino (0, 0); Submarino (1, 1)]
             [] [1; 1; 0] [1; 1; 0]) = Ok tab
    /\ valor (validar_espaciado (Submarino (0, 0)) tab) = Ok false.
Proof.
  destruct (validar_espaciado_correcta 3 3 [Submarino (0, 0); Submarino (1, 1)]
              [] [1; 1; 0] [1; 1; 0]) as (tab & Htab & H).
  exists tab. split; [exact Htab|].
  vm_compute in Htab. injection Htab as <-.
  destruct (H (Submarino (0, 0))) as (b & Hb & _ & Hiff).
  destruct b; [exfalso | exact Hb].
  pose proof (proj1 Hiff eq_refl (MkCelda 0 0 Pieza.C)) as Hno.
  discriminate (Hno ltac:(left) ltac:(unfold en_tablero; simpl; lia) 1 1).
  - unfold vecino_moore. split; [lia|]. split; [lia|]. discriminate.
  - unfold en_tablero. simpl. lia.
  - intros Hin. apply list_elem_of_In in Hin. destruct Hin as [Hin|[]].
    discriminate Hin.
Defined.

Lemma todos_continua {A} (cuerpo : A -> Py bool) (l : list A) :
  (forall x, x ∈ l -> cuerpo x = mret true) -> todos cuerpo l = mret true.
Proof.
  induction l as [|x l IH]; intros Hl; [done|].
  cbn [todos]. rewrite (Hl x) by left.
  change (mret true ≫= ?k) with (MkPy (Ok true) [] ≫= k).
  rewrite Py_bind_MkPy. rewrite IH; [done|]. intros y Hy. apply Hl. by right.
Qed.

(** C10 (as the code has it).  On the board the constructor returns, a
    target whose declared cells all lie outside the bounds passes
    [validar_espaciado] without touching the matrix: every cell is
    skipped.  If it declares at least one cell, it fails [validar_limites]
    and [validar_integridad], again without touching the matrix.  If it
    declares no cell at all, it passes those two checks as well. *)
Theorem validar_espaciado_fuera nF nC fl ps pf pc :
  exists tab,
    valor (Tablero_init nF nC fl ps pf pc) = Ok tab
    /\ forall self : Objetivo,
         (forall x, x ∈ partes self -> ~ en_tablero nF nC (posicion x)) ->
         validar_espaciado self tab = MkPy (Ok true) []
         /\ (partes self <> [] ->
             validar_limites self tab = false
             /\ validar_integridad self tab = MkPy (Ok false) [])
         /\ (partes self = [] ->
             validar_limites self tab = true
             /\ validar_integridad self tab = MkPy (Ok true) []).
Proof.
  destruct (Tablero_init_corre nF nC fl ps pf pc) as (m & Hrun & Hm & _).
  set (tab := MkTablero (nF, nC) fl ps pf pc m) in *.
  exists tab. split; [by rewrite Hrun|].
  intros [ubi celdas] Hfuera. simpl in Hfuera. split; [|split].
  - unfold validar_espaciado. cbn [tamano_tablero tab partes].
    apply todos_continua. intros x Hx.
    apply Hfuera, dentro_false in Hx. unfold posicion in Hx. by rewrite Hx.
  - simpl. intros Hne. destruct celdas as [|x xs]; [done|].
    assert (Hx : dentro (fila x) (columna x) nF nC = false)
      by (apply dentro_false, Hfuera; left).
    unfold validar_limites, validar_integridad. cbn. by rewrite Hx.
  - simpl. by intros ->.
Qed.

(** C10 on a 2 x 2 board: the submarine at (5, 5) passes the spacing check
    and fails the other two, and none of the three touches the matrix. *)
Lemma validar_espaciado_fuera_witness :
  exists tab,
    valor (Tablero_init 2 2 [Submarino (5, 5)] [] [0; 0] [0; 0]) = Ok tab
    /\ validar_espaciado (Submarino (5, 5)) tab = MkPy (Ok true) []
    /\ validar_limites (Submarino (5, 5)) tab = false
    /\ validar_integridad (Submarino (5, 5)) tab = MkPy (Ok false) [].
Proof.
  destruct (validar_espaciado_fuera 2 2 [Submarino (5, 5)] [] [0; 0] [0; 0])
    as (tab & Htab & H).
  exists tab. split; [exact Htab|].
  destruct (H (Submarino (5, 5))) as (He & Hne & _).
  { intros x Hx. apply list_elem_of_In in Hx. destruct Hx as [<-|[]].
    unfold en_tablero. simpl. lia. }
  split; [exact He|]. by apply Hne.
Defined.

(** C10, refuted as stated: on the 1 x 1 board with an empty fleet, the
    target with no declared cell has all of its cells outside the bounds,
    and it passes the bounds check and the integrity check. *)
Lemma objetivo_sin_celdas_pasa :
  exists tab,
    valor (Tablero_init 1 1 [] [] [0] [0]) = Ok tab
    /\ (forall x, x ∈ partes (MkObjetivo (0, 0) []) -> ~ en_tablero 1 1 (posicion x))
    /\ validar_espaciado (MkObjetivo (0, 0) []) tab = MkPy (Ok true) []
    /\ validar_limites (MkObjetivo (0, 0) []) tab = true
    /\ validar_integridad (MkObjetivo (0, 0) []) tab = MkPy (Ok true) [].
Proof.
  eexists. split; [reflexivity|]. split; [|by repeat split].
  intros x Hx. by apply elem_of_nil in Hx.
Qed.

(** ** The orchestrator and the fleet validator *)

Lemma validar_restricciones_valor tab self (bi be : bool) :
  valor (validar_integridad self tab) = Ok bi ->
  valor (validar_espaciado self tab) = Ok be ->
  valor (validar_restricciones self tab) = Ok (validar_limites self tab && bi && be).
Proof.
  intros Hi He. unfold validar_restricciones.
  destruct (validar_limites self tab); [|done]. cbn [negb andb].
  rewrite valor_bind, Hi. destruct bi; [|done]. cbn [negb andb mbind resultado_bind].
  rewrite valor_bind, He. by destruct be.
Qed.

(** C7.  On the board the constructor returns, [validar_restricciones] of
    any target returns a boolean without raising, and it is true exactly
    when [validar_limites], [validar_integridad] and [validar_espaciado]
    are all true.  [obtener_barcos_invalidos] returns the targets of the
    fleet for which [validar_restricciones] is false, in fleet order, and
    the matrix positions it reads are those that [validar_restricciones]
    reads for each target of the fleet in turn: every target is checked. *)
Theorem obtener_barcos_invalidos_correcta nF nC fl ps pf pc :
  exists tab,
    valor (Tablero_init nF nC fl ps pf pc) = Ok tab
    /\ (forall self : Objetivo,
          exists b : bool,
            valor (validar_restricciones self tab) = Ok b
            /\ (b = true <->
                validar_limites self tab = true
                /\ valor (validar_integridad self tab) = Ok true
                /\ valor (validar_espaciado self tab) = Ok true))
    /\ valor (obtener_barcos_invalidos tab)
       = Ok (filter (fun o => valor (validar_restricciones o tab) = Ok false) fl)
    /\ accesos (obtener_barcos_invalidos tab)
       = fl ≫= (fun o => accesos (validar_restricciones o tab)).
Proof.
  destruct (Tablero_init_corre nF nC fl ps pf pc) as (m & Hrun & Hm & _).
  set (tab := MkTablero (nF, nC) fl ps pf pc m) in *.
  exists tab. split; [by rewrite Hrun|].
  assert (Hval : forall self, exists b bi be : bool,
             valor (validar_integridad self tab) = Ok bi
             /\ valor (validar_espaciado self tab) = Ok be
             /\ b = validar_limites self tab && bi && be
             /\ valor (validar_restricciones self tab) = Ok b).
  { intros self.
    destruct (validar_integridad_corre tab nF nC eq_refl Hm self) as [Hi _].
    destruct (validar_espaciado_corre tab nF nC eq_refl Hm self) as [He _].
    do 3 eexists. split; [exact Hi|]. split; [exact He|]. split; [reflexivity|].
    by apply validar_restricciones_valor. }
  split.
  { intros self. destruct (Hval self) as (b & bi & be & Hi & He & -> & Hb).
    eexists. split; [exact Hb|]. rewrite Hi, He, !andb_true_iff.
    split; [intros [[-> ->] ->] | intros (-> & [= ->] & [= ->])]; done. }
  set (ok := fun o => match valor (validar_restricciones o tab) with
                      | Ok b => b
                      | Lanza _ => false
                      end).
  assert (Hok : forall o, valor (validar_restricciones o tab) = Ok (ok o)).
  { intros o. destruct (Hval o) as (b & _ & _ & _ & _ & _ & Hb).
    unfold ok. by rewrite Hb. }
  destruct (filtrar_corre
              (fun barco => valido ← validar_restricciones barco tab; mret (negb valido))
              (fun o => negb (ok o)) fl) as [Hv Ha].
  { intros o _. by rewrite valor_bind, Hok. }
  unfold obtener_barcos_invalidos. cbn [flota tab]. split.
  - rewrite Hv. f_equal. apply list_filter_iff. intros o.
    rewrite Hok. destruct (ok o); simpl; split; (done || congruence).
  - rewrite Ha. apply list_bind_ext; [|done]. intros o.
    rewrite accesos_bind, Hok. simpl. apply app_nil_r.
Qed.

(** C7 on the 2 x 2 board whose fleet is the submarine at (0, 0) and a
    submarine outside the board: the first is valid, and the offenders are
    the second alone. *)
Lemma obtener_barcos_invalidos_correcta_witness :
  exists tab,
    valor (Tablero_init 2 2 [Submarino (0, 0); Submarino (5, 5)]
             [] [1; 0] [1; 0]) = Ok tab
    /\ valor (validar_restricciones (Submarino (0, 0)) tab) = Ok true
    /\ valor (obtener_barcos_invalidos tab) = Ok [Submarino (5, 5)].
Proof.
  destruct (obtener_barcos_invalidos_correcta 2 2
              [Submarino (0, 0); Submarino (5, 5)] [] [1; 0] [1; 0])
    as (tab & Htab & Hval & Hfil & _).
  exists tab. split; [exact Htab|].
  vm_compute in Htab. injection Htab as <-. split.
  - destruct (Hval (Submarino (0, 0))) as (b & Hb & Hiff).
    rewrite Hb. f_equal. apply Hiff. by vm_compute.
  - rewrite Hfil. by vm_compute.
Defined.

(** ** The count check *)

Lemma range_cero n : range 0 n = seqZ 0 (Z.of_nat (Z.to_nat n)).
Proof. unfold range, seqZ. rewrite Nat2Z.id. by replace (n - 0) with n by lia. Qed.

Lemma elem_of_range a b i : i ∈ range a b <-> a <= i < b.
Proof. unfold range. rewrite elem_of_seqZ. lia. Qed.

(** Counting over the indices of a list agrees with counting over its
    elements. *)
Lemma contar_por_indice (g : Z -> bool) (l : list Pieza.t) : forall a,
  (forall (i : nat) v, l !! i = Some v -> g (a + Z.of_nat i) = Pieza.es_barco v) ->
  length (filter (fun c => g c = true) (seqZ a (Z.of_nat (length l))))
  = length (filter (fun v => v <> Pieza.W) l).
Proof.
  induction l as [|x l IH]; intros a Hg; [done|].
  rewrite seqZ_cons by (simpl; lia).
  replace (Z.pred (Z.of_nat (length (x :: l)))) with (Z.of_nat (length l))
    by (simpl; lia).
  assert (Hx : g a = Pieza.es_barco x).
  { rewrite <- (Hg 0%nat x eq_refl). f_equal. lia. }
  assert (IH' : length (filter (fun c => g c = true) (seqZ (Z.succ a) (Z.of_nat (length l))))
                = length (filter (fun v => v <> Pieza.W) l)).
  { apply IH. intros i v Hv. rewrite <- (Hg (S i) v Hv). f_equal. lia. }
  rewrite !filter_cons. unfold Pieza.es_barco in Hx.
  destruct (decide (x <> Pieza.W)) as [Hw|Hw].
  - rewrite decide_True by (by rewrite Hx, bool_decide_eq_true). simpl. by rewrite IH'.
  - rewrite decide_False; [done|]. rewrite Hx. by rewrite bool_decide_eq_false_2.
Qed.

Lemma contar_linea (l : list Pieza.t) (n : Z) (lee : Z -> Py Pieza.t) :
  length l = Z.to_nat n ->
  (forall i, 0 <= i < n -> exists v, l !! Z.to_nat i = Some v /\ valor (lee i) = Ok v) ->
  valor (contar (fun i => v ← lee i; mret (Pieza.es_barco v)) (range 0 n))
  = Ok (barcos_en l).
Proof.
  intros Hlen Hlee.
  set (g := fun i => match l !! Z.to_nat i with
                     | Some v => Pieza.es_barco v
                     | None => false
                     end).
  destruct (contar_corre (fun _ => True)
              (fun i => v ← lee i; mret (Pieza.es_barco v)) g (range 0 n)) as [-> _].
  { intros i Hi. apply elem_of_range in Hi.
    destruct (Hlee i Hi) as (v & Hv & Hrun).
    split; [|by apply Forall_true].
    rewrite valor_bind, Hrun. unfold g. by rewrite Hv. }
  f_equal. unfold barcos_en. f_equal.
  rewrite range_cero, <- Hlen. apply contar_por_indice.
  intros i v Hv. unfold g. by rewrite Z.add_0_l, Nat2Z.id, Hv.
Qed.

Lemma columna_de_lookup (k n : nat) (m : list (list Pieza.t)) :
  Forall (fun fila_f => length fila_f = n) m -> (k < n)%nat ->
  length (omap (fun fila_f : list Pieza.t => fila_f !! k) m) = length m
  /\ forall i : nat,
       omap (fun fila_f : list Pieza.t => fila_f !! k) m !! i
       = m !! i ≫= (fun fila_f => fila_f !! k).
Proof.
  intros Hm Hk. induction Hm as [|fila_f m Hlen Hm [IHlen IHget]]; [by split|].
  destruct (lookup_lt_is_Some_2 fila_f k) as [v Hv]; [lia|].
  cbn [omap list_omap]. rewrite Hv. split; [simpl; by rewrite IHlen|].
  intros [|i]; [simpl; by rewrite Hv | apply IHget].
Qed.

Lemma comparar_pista (pistas_l : list Z) (i suma_actual : Z) :
  0 <= i < Z.of_nat (length pistas_l) ->
  valor (pista ← sin_acceso (getitem pistas_l i);
         if bool_decide (suma_actual <> pista) then mret false else mret true)
  = Ok (bool_decide (pistas_l !! Z.to_nat i = Some suma_actual)).
Proof.
  intros Hi.
  destruct (lookup_lt_is_Some_2 pistas_l (Z.to_nat i)) as [p Hp]; [lia|].
  rewrite valor_bind. unfold sin_acceso. cbn [valor].
  rewrite (getitem_dentro pistas_l i p) by (lia || done).
  cbn [mbind resultado_bind]. rewrite Hp.
  destruct (decide (suma_actual = p)) as [->|Hne].
  - rewrite (bool_decide_eq_false_2 (_ <> _)) by (intros H; by apply H).
    by rewrite bool_decide_eq_true_2.
  - rewrite (bool_decide_eq_true_2 (_ <> _)) by done.
    by rewrite bool_decide_eq_false_2 by congruence.
Qed.

(** C9.  When the row clues and the column clues are at least as long as
    the number of rows and of columns, [validar_cuentas] on the board the
    constructor returns gives a boolean without raising, and it is true
    exactly when every row index has as many cells other than water in its
    row as the row clue says, and every column index as many in its column
    as the column clue says. *)
Theorem validar_cuentas_correcta nF nC fl ps (pf pc : list Z) :
  nF <= Z.of_nat (length pf) ->
  nC <= Z.of_nat (length pc) ->
  exists tab,
    valor (Tablero_init nF nC fl ps pf pc) = Ok tab
    /\ exists b : bool,
         valor (validar_cuentas tab) = Ok b
         /\ (b = true <->
             (forall f, 0 <= f < nF ->
                pf !! Z.to_nat f = Some (barcos_en (fila_de (matriz tab) f)))
             /\ (forall c, 0 <= c < nC ->
                   pc !! Z.to_nat c = Some (barcos_en (columna_de (matriz tab) c)))).
Proof.
  intros Hpf Hpc.
  destruct (Tablero_init_corre nF nC fl ps pf pc) as (m & Hrun & Hm & _).
  set (tab := MkTablero (nF, nC) fl ps pf pc m) in *.
  exists tab. split; [by rewrite Hrun|].
  exists (forallb (fun f => bool_decide (pf !! Z.to_nat f = Some (barcos_en (fila_de m f))))
                  (range 0 nF)
          && forallb (fun c => bool_decide (pc !! Z.to_nat c
                                            = Some (barcos_en (columna_de m c))))
                     (range 0 nC)).
  split.
  - unfold validar_cuentas. cbn [tamano_tablero tab matriz pistas_filas pistas_cols].
    rewrite valor_bind.
    match goal with
    | |- context [todos ?cuerpo (range 0 nF)] =>
        destruct (todos_corre (fun _ => True) cuerpo
                    (fun f => bool_decide (pf !! Z.to_nat f
                                           = Some (barcos_en (fila_de m f))))
                    (range 0 nF)) as [-> _]
    end.
    { intros f Hf. apply elem_of_range in Hf. split; [|by apply Forall_true].
      rewrite valor_bind.
      destruct (rectangular_fila nF nC m f Hm Hf) as (fila_f & Hfila & Hlen).
      rewrite (contar_linea (fila_de m f) nC).
      - cbn [mbind resultado_bind]. apply comparar_pista. lia.
      - unfold fila_de. by rewrite Hfila.
      - intros c Hc.
        destruct (leer_dentro nF nC m f c Hm) as (v & Hv & ->); [done|].
        exists v. split; [|done].
        unfold tipo_en in Hv. rewrite Hfila in Hv.
        unfold fila_de. by rewrite Hfila. }
    cbn [mbind resultado_bind].
    destruct (forallb _ (range 0 nF)); [|done]. cbn [andb].
    match goal with
    | |- context [todos ?cuerpo (range 0 nC)] =>
        destruct (todos_corre (fun _ => True) cuerpo
                    (fun c => bool_decide (pc !! Z.to_nat c
                                           = Some (barcos_en (columna_de m c))))
                    (range 0 nC)) as [-> _]
    end; [|reflexivity].
    intros c Hc. apply elem_of_range in Hc. split; [|by apply Forall_true].
    rewrite valor_bind.
    destruct Hm as [Hfilas Hcols].
    destruct (columna_de_lookup (Z.to_nat c) (Z.to_nat nC) m Hcols) as [Hl Hg];
      [lia|].
    rewrite (contar_linea (columna_de m c) nF).
    + cbn [mbind resultado_bind]. apply comparar_pista. lia.
    + unfold columna_de. by rewrite Hl.
    + intros f Hf.
      destruct (leer_dentro nF nC m f c (conj Hfilas Hcols)) as (v & Hv & ->);
        [done|].
      exists v. split; [|done].
      unfold columna_de. by rewrite Hg.
  - rewrite andb_true_iff, !forallb_elem_of.
    setoid_rewrite elem_of_range. setoid_rewrite bool_decide_eq_true. done.
Qed.

(** C9 on the 2 x 2 board with one submarine at (0, 0) and clues
    [1, 0] for the rows and for the columns. *)
Lemma validar_cuentas_correcta_witness :
  2 <= Z.of_nat (length [1; 0]) /\ 2 <= Z.of_nat (length [1; 0])
  /\ exists tab,
       valor (Tablero_init 2 2 [Submarino (0, 0)] [] [1; 0] [1; 0]) = Ok tab
       /\ valor (validar_cuentas tab) = Ok true.
Proof.
  split; [simpl; lia|]. split; [simpl; lia|].
  destruct (validar_cuentas_correcta 2 2 [Submarino (0, 0)] [] [1; 0] [1; 0])
    as (tab & Htab & b & Hb & _); [simpl; lia | simpl; lia |].
  exists tab. split; [exact Htab|].
  vm_compute in Htab. injection Htab as <-.
  rewrite Hb. vm_compute in Hb. symmetry. exact Hb.
Defined.

(** ** Overlapping targets *)

Lemma celdas_declaradas_app fl1 fl2 :
  celdas_declaradas (fl1 ++ fl2) = celdas_declaradas fl1 ++ celdas_declaradas fl2.
Proof. apply bind_app. Qed.

Lemma celdas_declaradas_cons T fl :
  celdas_declaradas (T :: fl) = partes T ++ celdas_declaradas fl.
Proof. reflexivity. Qed.

(** What the grid holds at the cells of a target that no later target
    touches and that does not contradict itself. *)
Lemma pintado_ultimo_objetivo (antes : list Objetivo) (T2 : Objetivo)
    (post : list Objetivo) (z : Celda) :
  z ∈ partes T2 ->
  (forall T y z, T ∈ post -> y ∈ partes T -> z ∈ partes T2 -> posicion y <> posicion z) ->
  (forall y z, y ∈ partes T2 -> z ∈ partes T2 -> posicion y = posicion z -> tipo y = tipo z) ->
  pintado (antes ++ T2 :: post) (fila z) (columna z) = tipo z.
Proof.
  intros Hz Hpost Hself. unfold pintado.
  rewrite celdas_declaradas_app, celdas_declaradas_cons, !ultimo_declarado_app.
  rewrite (ultimo_declarado_None (celdas_declaradas post)).
  - rewrite (ultimo_declarado_Some (partes T2) _ _ z); [done | done | done |].
    intros y Hy Hpos. by apply Hself.
  - intros y Hy. apply list_elem_of_bind in Hy as (T & Hy & HT).
    by apply (Hpost T y z).
Qed.

(** C3 (as the code has it).  Take a fleet in which [T1] comes before [T2],
    both declare a common position inside the bounds with different kinds,
    every cell of [T2] is inside the bounds, no target after [T2] declares
    a position of [T2], and [T2] itself declares no position with two
    different kinds.  Then the grid holds the kind [T2] declares at the
    common position, [T1] fails the integrity check and [T2] passes it. *)
Theorem pintado_sensible_al_orden nF nC (pre : list Objetivo) (T1 : Objetivo)
    (mid : list Objetivo) (T2 : Objetivo) (post : list Objetivo) ps pf pc
    (x1 x2 : Celda) :
  x1 ∈ partes T1 -> x2 ∈ partes T2 ->
  posicion x1 = posicion x2 -> en_tablero nF nC (posicion x2) ->
  tipo x1 <> tipo x2 ->
  (forall y, y ∈ partes T2 -> en_tablero nF nC (posicion y)) ->
  (forall T y z, T ∈ post -> y ∈ partes T -> z ∈ partes T2 -> posicion y <> posicion z) ->
  (forall y z, y ∈ partes T2 -> z ∈ partes T2 -> posicion y = posicion z -> tipo y = tipo z) ->
  exists tab,
    valor (Tablero_init nF nC (pre ++ T1 :: mid ++ T2 :: post) ps pf pc) = Ok tab
    /\ tipo_en (matriz tab) (fila x2) (columna x2) = Some (tipo x2)
    /\ valor (validar_integridad T1 tab) = Ok false
    /\ valor (validar_integridad T2 tab) = Ok true.
Proof.
  intros Hx1 Hx2 Hpos Hdentro Hne Hdentro2 Hpost Hself.
  set (fl := pre ++ T1 :: mid ++ T2 :: post).
  destruct (Tablero_init_corre nF nC fl ps pf pc) as (m & Hrun & Hm & Hget).
  set (tab := MkTablero (nF, nC) fl ps pf pc m) in *.
  exists tab. split; [by rewrite Hrun|].
  assert (Hfl : fl = (pre ++ T1 :: mid) ++ T2 :: post)
    by (unfold fl; by rewrite <- app_assoc).
  assert (HT2 : forall z, z ∈ partes T2 ->
            tipo_en m (fila z) (columna z) = Some (tipo z)).
  { intros z Hz. rewrite (Hget _ _ (Hdentro2 z Hz)), Hfl.
    by rewrite pintado_ultimo_objetivo. }
  split; [by apply HT2|].
  destruct (validar_integridad_corre tab nF nC eq_refl Hm T1) as [-> _].
  destruct (validar_integridad_corre tab nF nC eq_refl Hm T2) as [-> _].
  split; f_equal.
  - apply not_true_is_false. intros Hb. rewrite forallb_elem_of in Hb.
    specialize (Hb x1 Hx1). apply andb_true_iff in Hb as [_ Hb].
    apply bool_decide_eq_true in Hb. cbn [matriz tab] in Hb.
    unfold posicion in Hpos. injection Hpos as Hf Hc.
    rewrite Hf, Hc, (HT2 x2 Hx2) in Hb. congruence.
  - apply forallb_elem_of. intros z Hz. apply andb_true_iff.
    split; apply bool_decide_eq_true; [by apply Hdentro2 | by apply HT2].
Qed.

(** C3 on a 2 x 2 board: the submarine at (0, 0), then a vertical ship of
    two cells anchored at (0, 0). *)
Lemma pintado_sensible_al_orden_witness :
  exists tab,
    valor (Tablero_init 2 2
             [Submarino (0, 0);
              MkObjetivo (0, 0) [MkCelda 0 0 Pieza.T; MkCelda 1 0 Pieza.B]]
             [] [1; 1] [2; 0]) = Ok tab
    /\ tipo_en (matriz tab) 0 0 = Some Pieza.T
    /\ valor (validar_integridad (Submarino (0, 0)) tab) = Ok false
    /\ valor (validar_integridad
                (MkObjetivo (0, 0) [MkCelda 0 0 Pieza.T; MkCelda 1 0 Pieza.B]) tab)
       = Ok true.
Proof.
  apply (pintado_sensible_al_orden 2 2 [] (Submarino (0, 0)) []
           (MkObjetivo (0, 0) [MkCelda 0 0 Pieza.T; MkCelda 1 0 Pieza.B]) []
           [] [1; 1] [2; 0] (MkCelda 0 0 Pieza.C) (MkCelda 0 0 Pieza.T)).
  - simpl. left.
  - simpl. left.
  - reflexivity.
  - unfold en_tablero. simpl. lia.
  - discriminate.
  - intros y Hy. simpl in Hy. apply list_elem_of_In in Hy.
    destruct Hy as [<-|[<-|[]]]; unfold en_tablero; simpl; lia.
  - intros T y z HT. by apply elem_of_nil in HT.
  - intros y z Hy Hz. simpl in Hy, Hz.
    apply list_elem_of_In in Hy. apply list_elem_of_In in Hz.
    destruct Hy as [<-|[<-|[]]]; destruct Hz as [<-|[<-|[]]];
      (reflexivity || discriminate).
Defined.

(** C3, refuted as stated: on the 1 x 1 board, the submarine at (0, 0)
    comes first and then a target that declares (0, 0) twice, as a top end
    and as a bottom end.  The two targets declare (0, 0) with different
    kinds, the second target is inside the bounds and is the last of the
    fleet; the grid holds the bottom end, not the top end, and the second
    target fails the integrity check. *)
Lemma objetivo_que_se_pisa :
  exists tab,
    valor (Tablero_init 1 1
             [Submarino (0, 0);
              MkObjetivo (0, 0) [MkCelda 0 0 Pieza.T; MkCelda 0 0 Pieza.B]]
             [] [1] [1]) = Ok tab
    /\ MkCelda 0 0 Pieza.C ∈ partes (Submarino (0, 0))
    /\ MkCelda 0 0 Pieza.T
       ∈ partes (MkObjetivo (0, 0) [MkCelda 0 0 Pieza.T; MkCelda 0 0 Pieza.B])
    /\ posicion (MkCelda 0 0 Pieza.C) = posicion (MkCelda 0 0 Pieza.T)
    /\ en_tablero 1 1 (posicion (MkCelda 0 0 Pieza.T))
    /\ tipo (MkCelda 0 0 Pieza.C) <> tipo (MkCelda 0 0 Pieza.T)
    /\ Forall (fun y => en_tablero 1 1 (posicion y))
              (partes (MkObjetivo (0, 0) [MkCelda 0 0 Pieza.T; MkCelda 0 0 Pieza.B]))
    /\ tipo_en (matriz tab) 0 0 = Some Pieza.B
    /\ valor (validar_integridad
                (MkObjetivo (0, 0) [MkCelda 0 0 Pieza.T; MkCelda 0 0 Pieza.B]) tab)
       = Ok false.
Proof.
  eexists. split; [reflexivity|].
  split; [by left|]. split; [by left|]. split; [reflexivity|].
  split; [by vm_compute|]. split; [discriminate|].
  split; [by repeat constructor|]. by split.
Qed.

(** ** Targets built by the two constructors *)

(** The builder leaves no slot empty: [Barco.__init__] either raises
    [IndexError], for a length below 1, or yields a target with exactly
    [longitud] cells. *)
Lemma Barco_init_casos (ubic : Z * Z) (len : Z) (d : Direccion) :
  (len <= 0 /\ Barco_init ubic len d = Lanza IndexError)
  \/ (1 <= len
      /\ exists celdas,
           Barco_init ubic len d = Ok (MkBarco len d (MkObjetivo ubic celdas))
           /\ length celdas = Z.to_nat len).
Proof.
  destruct ubic as [r c].
  destruct (decide (len <= 0)) as [Hneg|Hpos]; [left; split; [done|] | right; split; [lia|]].
  - unfold Barco_init, construir_partes_barco.
    replace (Z.to_nat len) with 0%nat by lia. by destruct d.
  - destruct (decide (len = 1)) as [->|Hne].
    + eexists. split; [apply Barco_init_uno | done].
    + exists (corrida len d r c).
      split; [apply Barco_init_largo | apply length_corrida]; lia.
Qed.

Lemma posiciones_corrida (len : Z) (d : Direccion) (r c : Z) :
  2 <= len ->
  posicion <$> corrida len d r c
  = (fun i => match d with
              | VERTICAL => (r + i, c)
              | HORIZONTAL => (r, c + i)
              end) <$> seqZ 0 len.
Proof.
  intros Hlen. apply list_eq. intros j.
  rewrite !list_lookup_fmap.
  destruct (decide (Z.of_nat j < len)) as [Hj|Hj].
  - rewrite lookup_seqZ_lt by done.
    destruct d; unfold corrida; rewrite lookup_corrida by done;
      repeat case_bool_decide; try lia; subst; simpl; unfold posicion; simpl;
      do 2 f_equal; lia.
  - rewrite lookup_seqZ_ge by lia.
    destruct d; unfold corrida; rewrite lookup_corrida by done;
      repeat case_bool_decide; (done || lia).
Qed.

(** The cells of a ship or of a submarine sit on pairwise distinct
    positions, so such a target never declares a position twice. *)
Lemma Barco_posiciones_distintas (ubic : Z * Z) (len : Z) (d : Direccion) (b : Barco) :
  Barco_init ubic len d = Ok b -> NoDup (posicion <$> partes b).
Proof.
  destruct ubic as [r c]. intros Hb.
  destruct (Barco_init_casos (r, c) len d) as [[_ Hno]|[Hlen _]]; [congruence|].
  destruct (decide (len = 1)) as [->|Hne].
  - rewrite Barco_init_uno in Hb. injection Hb as <-. simpl. apply NoDup_singleton.
  - rewrite Barco_init_largo in Hb by lia. injection Hb as <-.
    cbn [Barco_objetivo partes].
    rewrite posiciones_corrida by lia.
    apply NoDup_fmap_2; [|apply NoDup_seqZ].
    intros i j Hij. destruct d; injection Hij; lia.
Qed.

Lemma Submarino_posiciones_distintas (ubic : Z * Z) :
  NoDup (posicion <$> partes (Submarino ubic)).
Proof. apply NoDup_singleton. Qed.

Lemma posiciones_distintas_coherente (celdas : list Celda) :
  NoDup (posicion <$> celdas) ->
  forall y z, y ∈ celdas -> z ∈ celdas -> posicion y = posicion z -> tipo y = tipo z.
Proof.
  intros Hnd y z Hy Hz Hpos. f_equal.
  apply list_elem_of_lookup in Hy as [i Hi].
  apply list_elem_of_lookup in Hz as [j Hj].
  assert (i = j); [|congruence].
  apply (NoDup_lookup _ i j (posicion y) Hnd).
  - by rewrite list_lookup_fmap, Hi.
  - by rewrite list_lookup_fmap, Hj, Hpos.
Qed.

(** ** The clue-cell check *)

(** C2, at two clues outside a 1 x 1 board.  [validar_pistas] indexes the
    matrix with the clue's position as it comes, with no check of the
    bounds: for the clue at row 1 the read raises [IndexError], and for the
    clue at row -1 Python's negative indexing reads row 0, finds the water
    the clue asks for and the check answers true. *)
Lemma validar_pistas_sin_limites :
  (exists tab,
     valor (Tablero_init 1 1 [] [(1, 0, Pieza.W)] [0] [0]) = Ok tab
     /\ ~ en_tablero 1 1 (1, 0)
     /\ validar_pistas tab = MkPy (Lanza IndexError) [(1, 0)])
  /\ (exists tab,
        valor (Tablero_init 1 1 [] [(-1, 0, Pieza.W)] [0] [0]) = Ok tab
        /\ ~ en_tablero 1 1 (-1, 0)
        /\ validar_pistas tab = MkPy (Ok true) [(-1, 0)]).
Proof.
  split; eexists; (split; [reflexivity|]);
    (split; [unfold en_tablero; simpl; lia | reflexivity]).
Qed.

(** * Further properties of the code *)

(** ** Loops that may raise *)

Lemma valor_todos {A} (cuerpo : A -> Py bool) (l : list A) :
  valor (todos cuerpo l) = todos_resultado (fun x => valor (cuerpo x)) l.
Proof.
  induction l as [|x l IH]; [done|].
  cbn [todos todos_resultado]. rewrite valor_bind.
  destruct (valor (cuerpo x)) as [[|]|e]; [exact IH | done | done].
Qed.

Lemma todos_resultado_ext {A} (f g : A -> resultado bool) (l : list A) :
  (forall x, x ∈ l -> f x = g x) -> todos_resultado f l = todos_resultado g l.
Proof.
  induction l as [|x l IH]; intros Hl; [done|].
  cbn [todos_resultado]. rewrite (Hl x) by left.
  rewrite IH; [done|]. intros y Hy. apply Hl. by right.
Qed.

Lemma todos_resultado_Ok {A} (g : A -> bool) (l : list A) :
  todos_resultado (fun x => Ok (g x)) l = Ok (forallb g l).
Proof.
  induction l as [|x l IH]; [done|]. cbn [todos_resultado forallb].
  by destruct (g x).
Qed.


Section accesos.
Variable P : Posicion -> Prop.

Lemma accesos_bind_Forall {A B} (m : Py A) (k : A -> Py B) :
  Forall P (accesos m) -> (forall a, Forall P (accesos (k a))) ->
  Forall P (accesos (m ≫= k)).
Proof.
  intros Hm Hk. rewrite accesos_bind. destruct (valor m); [|done].
  by apply Forall_app.
Qed.

Lemma accesos_todos {A} (cuerpo : A -> Py bool) (l : list A) :
  (forall x, x ∈ l -> Forall P (accesos (cuerpo x))) ->
  Forall P (accesos (todos cuerpo l)).
Proof.
  induction l as [|x l IH]; intros Hl; [constructor|].
  cbn [todos]. apply accesos_bind_Forall; [apply Hl; left|].
  intros [|]; [|constructor]. apply IH. intros y Hy. apply Hl. by right.
Qed.

Lemma accesos_contar {A} (cond : A -> Py bool) (l : list A) :
  (forall x, x ∈ l -> Forall P (accesos (cond x))) ->
  Forall P (accesos (contar cond l)).
Proof.
  induction l as [|x l IH]; intros Hl; [constructor|].
  cbn [contar]. apply accesos_bind_Forall; [apply Hl; left|].
  intros b. apply accesos_bind_Forall; [|intros; constructor].
  apply IH. intros y Hy. apply Hl. by right.
Qed.

Lemma accesos_filtrar {A} (cond : A -> Py bool) (l : list A) :
  (forall x, x ∈ l -> Forall P (accesos (cond x))) ->
  Forall P (accesos (filtrar cond l)).
Proof.
  induction l as [|x l IH]; intros Hl; [constructor|].
  cbn [filtrar]. apply accesos_bind_Forall; [apply Hl; left|].
  intros b. apply accesos_bind_Forall; [|intros; constructor].
  apply IH. intros y Hy. apply Hl. by right.
Qed.

End accesos.

(** ** Reading the matrix at any index *)

Lemma getitem_valido {A} (l : list A) (i : Z) :
  indice_valido (Z.of_nat (length l)) i ->
  exists x, l !! Z.to_nat (envuelve (Z.of_nat (length l)) i) = Some x
            /\ getitem l i = Ok x.
Proof.
  intros [Hlo Hhi]. unfold getitem, py_indice, envuelve.
  destruct (decide (i < 0)) as [Hneg|Hpos].
  - rewrite (bool_decide_eq_true_2 (i < 0)) by done.
    rewrite bool_decide_eq_false_2 by lia.
    rewrite bool_decide_eq_true_2 by lia. cbn [mbind resultado_bind].
    replace (Z.of_nat (length l) + i) with (i + Z.of_nat (length l)) by lia.
    destruct (lookup_lt_is_Some_2 l (Z.to_nat (i + Z.of_nat (length l)))) as [x Hx];
      [lia|].
    exists x. by rewrite Hx.
  - rewrite (bool_decide_eq_false_2 (i < 0)) by done.
    rewrite bool_decide_eq_true_2 by lia. cbn [mbind resultado_bind].
    destruct (lookup_lt_is_Some_2 l (Z.to_nat i)) as [x Hx]; [lia|].
    exists x. by rewrite Hx.
Qed.

Lemma getitem_no_valido {A} (l : list A) (i : Z) :
  ~ indice_valido (Z.of_nat (length l)) i -> getitem l i = Lanza IndexError.
Proof.
  intros Hi. unfold indice_valido in Hi. unfold getitem, py_indice.
  by rewrite !bool_decide_eq_false_2 by lia.
Qed.

Section leer_envuelto.
Variables (filas cols : Z) (m : list (list Pieza.t)).
Hypothesis Hm : rectangular filas cols m.

Lemma envuelve_en_tablero f c :
  indice_valido filas f -> indice_valido cols c ->
  en_tablero filas cols (envuelve filas f, envuelve cols c).
Proof.
  unfold indice_valido, en_tablero, envuelve. intros Hf Hc. simpl.
  repeat case_bool_decide; lia.
Qed.

Lemma leer_valido f c :
  indice_valido filas f -> indice_valido cols c ->
  exists v, tipo_en m (envuelve filas f) (envuelve cols c) = Some v
            /\ leer m f c = MkPy (Ok v) [(f, c)].
Proof.
  intros Hf Hc. destruct Hm as [Hfilas Hcols].
  assert (Hnf : Z.of_nat (length m) = filas) by (unfold indice_valido in Hf; lia).
  destruct (getitem_valido m f) as (fila_f & Hfila & Hget); [by rewrite Hnf|].
  rewrite Hnf in Hfila.
  assert (Hlen : length fila_f = Z.to_nat cols)
    by apply (Forall_lookup_1 _ _ _ _ Hcols Hfila).
  assert (Hnc : Z.of_nat (length fila_f) = cols) by (unfold indice_valido in Hc; lia).
  destruct (getitem_valido fila_f c) as (v & Hv & Hget'); [by rewrite Hnc|].
  rewrite Hnc in Hv.
  exists v. split.
  - unfold tipo_en. rewrite Hfila. exact Hv.
  - unfold leer. by rewrite Hget; cbn [mbind resultado_bind]; rewrite Hget'.
Qed.

Lemma leer_no_valido f c :
  ~ (indice_valido filas f /\ indice_valido cols c) ->
  leer m f c = MkPy (Lanza IndexError) [(f, c)].
Proof.
  intros Hno. destruct Hm as [Hfilas Hcols]. unfold leer. f_equal.
  destruct (decide (indice_valido (Z.of_nat (length m)) f)) as [Hf|Hf].
  - destruct (getitem_valido m f Hf) as (fila_f & Hfila & ->).
    cbn [mbind resultado_bind].
    assert (Hlen : length fila_f = Z.to_nat cols)
      by apply (Forall_lookup_1 _ _ _ _ Hcols Hfila).
    apply getitem_no_valido. unfold indice_valido in *. lia.
  - by rewrite getitem_no_valido.
Qed.

End leer_envuelto.

(** ** The clue-cell check at any clue *)

Section pistas.
Variables (tab : Tablero) (filas cols : Z).
Hypothesis Hrect : rectangular filas cols (matriz tab).

Lemma validar_pistas_valor :
  valor (validar_pistas tab)
  = todos_resultado (resultado_pista filas cols (matriz tab)) (pistas tab).
Proof.
  unfold validar_pistas. rewrite valor_todos.
  apply todos_resultado_ext. intros [[f c] t] _. unfold resultado_pista.
  destruct (decide (indice_valido filas f /\ indice_valido cols c)) as [[Hf Hc]|Hno].
  - destruct (leer_valido filas cols _ Hrect f c Hf Hc) as (v & Hv & ->).
    rewrite Py_bind_MkPy, Hv. cbn [valor].
    destruct (decide (v = t)) as [->|Hne].
    + rewrite (bool_decide_eq_false_2 (_ <> _)) by (intros H; by apply H).
      by rewrite bool_decide_eq_true_2.
    + rewrite (bool_decide_eq_true_2 (_ <> _)) by done.
      by rewrite bool_decide_eq_false_2 by congruence.
  - by rewrite (leer_no_valido filas cols _ Hrect f c Hno).
Qed.

End pistas.

Lemma envuelve_no_negativo n i : 0 <= i -> envuelve n i = i.
Proof. intros Hi. unfold envuelve. by rewrite bool_decide_eq_false_2 by lia. Qed.

(** X4.  When every clue position lies inside the board,
    [validar_pistas] on the board the constructor returns gives a boolean
    without raising, reads only positions inside the board, and answers
    true exactly when the matrix holds, at every clue's position, the kind
    the clue asks for. *)
Theorem validar_pistas_dentro nF nC fl (ps : list (Z * Z * Pieza.t)) pf pc :
  (forall f c t, (f, c, t) ∈ ps -> en_tablero nF nC (f, c)) ->
  exists tab,
    valor (Tablero_init nF nC fl ps pf pc) = Ok tab
    /\ exists b : bool,
         valor (validar_pistas tab) = Ok b
         /\ Forall (en_tablero nF nC) (accesos (validar_pistas tab))
         /\ (b = true <->
             forall f c t, (f, c, t) ∈ ps -> tipo_en (matriz tab) f c = Some t).
Proof.
  intros Hps.
  destruct (Tablero_init_corre nF nC fl ps pf pc) as (m & Hrun & Hm & _).
  set (tab := MkTablero (nF, nC) fl ps pf pc m) in *.
  exists tab. split; [by rewrite Hrun|].
  exists (forallb (fun p : Z * Z * Pieza.t =>
                     bool_decide (tipo_en m p.1.1 p.1.2 = Some p.2)) ps).
  split; [|split].
  - rewrite (validar_pistas_valor tab nF nC Hm). cbn [pistas tab].
    rewrite <- todos_resultado_Ok. apply todos_resultado_ext.
    intros [[f c] t] Hp. destruct (Hps f c t Hp) as [Hf Hc]. simpl in Hf, Hc.
    unfold resultado_pista. rewrite decide_True by (unfold indice_valido; lia).
    by rewrite !envuelve_no_negativo by lia.
  - unfold validar_pistas. cbn [matriz pistas tab].
    apply accesos_todos. intros [[f c] t] Hp.
    destruct (leer_dentro nF nC m f c Hm (Hps f c t Hp)) as (v & _ & ->).
    rewrite Py_bind_MkPy. cbn [accesos].
    constructor; [by apply (Hps f c t)|]. by destruct (bool_decide _).
  - rewrite forallb_elem_of. split.
    + intros Hb f c t Hp. specialize (Hb (f, c, t) Hp).
      by apply bool_decide_eq_true in Hb.
    + intros Hb [[f c] t] Hp. apply bool_decide_eq_true. by apply Hb.
Qed.

(** X4 on the 2 x 2 board with the submarine at (0, 0): the clues "a
    submarine at (0, 0)" and "water at (1, 1)" are both met. *)
Lemma validar_pistas_dentro_witness :
  exists tab,
    valor (Tablero_init 2 2 [Submarino (0, 0)]
             [(0, 0, Pieza.C); (1, 1, Pieza.W)] [1; 0] [1; 0]) = Ok tab
    /\ valor (validar_pistas tab) = Ok true.
Proof.
  destruct (validar_pistas_dentro 2 2 [Submarino (0, 0)]
              [(0, 0, Pieza.C); (1, 1, Pieza.W)] [1; 0] [1; 0])
    as (tab & Htab & b & Hb & _ & _).
  { intros f c t Hp. apply list_elem_of_In in Hp.
    destruct Hp as [[= <- <- <-]|[[= <- <- <-]|[]]]; unfold en_tablero; simpl; lia. }
  exists tab. split; [exact Htab|].
  vm_compute in Htab. injection Htab as <-.
  rewrite Hb. vm_compute in Hb. symmetry. exact Hb.
Defined.

(** X5.  A clue whose row lies in [-filas, filas) and whose column lies in
    [-cols, cols) never makes [validar_pistas] raise: a negative row or
    column counts from the end, as Python indexes lists.  With all clues
    in that range the check answers true exactly when the matrix holds
    the asked kind at every clue's wrapped position. *)
Theorem validar_pistas_envuelve nF nC fl (ps : list (Z * Z * Pieza.t)) pf pc :
  (forall f c t, (f, c, t) ∈ ps -> indice_valido nF f /\ indice_valido nC c) ->
  exists tab,
    valor (Tablero_init nF nC fl ps pf pc) = Ok tab
    /\ exists b : bool,
         valor (validar_pistas tab) = Ok b
         /\ (b = true <->
             forall f c t, (f, c, t) ∈ ps ->
               tipo_en (matriz tab) (envuelve nF f) (envuelve nC c) = Some t).
Proof.
  intros Hps.
  destruct (Tablero_init_corre nF nC fl ps pf pc) as (m & Hrun & Hm & _).
  set (tab := MkTablero (nF, nC) fl ps pf pc m) in *.
  exists tab. split; [by rewrite Hrun|].
  exists (forallb (fun p : Z * Z * Pieza.t =>
                     bool_decide (tipo_en m (envuelve nF p.1.1) (envuelve nC p.1.2)
                                  = Some p.2)) ps).
  split.
  - rewrite (validar_pistas_valor tab nF nC Hm). cbn [pistas tab].
    rewrite <- todos_resultado_Ok. apply todos_resultado_ext.
    intros [[f c] t] Hp. unfold resultado_pista.
    by rewrite decide_True by (by apply (Hps f c t)).
  - rewrite forallb_elem_of. split.
    + intros Hb f c t Hp. specialize (Hb (f, c, t) Hp).
      by apply bool_decide_eq_true in Hb.
    + intros Hb [[f c] t] Hp. apply bool_decide_eq_true. by apply Hb.
Qed.

(** X5 on the 2 x 2 board with the submarine at (1, 1): the clue "a
    submarine at (-1, -1)" is met. *)
Lemma validar_pistas_envuelve_witness :
  exists tab,
    valor (Tablero_init 2 2 [Submarino (1, 1)] [(-1, -1, Pieza.C)] [0; 1] [0; 1])
    = Ok tab
    /\ valor (validar_pistas tab) = Ok true.
Proof.
  destruct (validar_pistas_envuelve 2 2 [Submarino (1, 1)]
              [(-1, -1, Pieza.C)] [0; 1] [0; 1])
    as (tab & Htab & b & Hb & _).
  { intros f c t Hp. apply list_elem_of_In in Hp.
    destruct Hp as [[= <- <- <-]|[]]; unfold indice_valido; lia. }
  exists tab. split; [exact Htab|].
  vm_compute in Htab. injection Htab as <-.
  rewrite Hb. vm_compute in Hb. symmetry. exact Hb.
Defined.



(** ** Ships as the constructor builds them *)

(** X1.  [Barco.__init__] raises [IndexError] when the length is zero or
    negative, because the first assignment indexes an empty list.  For a
    positive length it returns a ship that keeps the anchor, the length and
    the orientation it was given and has exactly [longitud] cells. *)
Theorem Barco_init_longitud (ubic : Z * Z) (len : Z) (d : Direccion) :
  (len <= 0 -> Barco_init ubic len d = Lanza IndexError)
  /\ (1 <= len ->
      exists b : Barco,
        Barco_init ubic len d = Ok b
        /\ longitud b = len /\ direccion b = d /\ ubicacion b = ubic
        /\ length (partes b) = Z.to_nat len).
Proof.
  destruct (Barco_init_casos ubic len d) as [[Hneg Hno]|(Hpos & celdas & Hb & Hlen)].
  - split; [done | lia].
  - split; [lia|]. intros _. eexists. split; [exact Hb|]. done.
Qed.

Lemma posiciones_barco (r c len : Z) (d : Direccion) (b : Barco) :
  Barco_init (r, c) len d = Ok b ->
  1 <= len
  /\ posicion <$> partes b
     = (fun i => match d with
                 | VERTICAL => (r + i, c)
                 | HORIZONTAL => (r, c + i)
                 end) <$> seqZ 0 len.
Proof.
  intros Hb.
  destruct (Barco_init_casos (r, c) len d) as [[_ Hno]|[Hlen _]]; [congruence|].
  split; [done|].
  destruct (decide (len = 1)) as [->|Hne].
  - rewrite Barco_init_uno in Hb. injection Hb as <-.
    destruct d; simpl; unfold posicion; simpl; do 2 f_equal; lia.
  - rewrite Barco_init_largo in Hb by lia. injection Hb as <-.
    cbn [Barco_objetivo partes]. apply posiciones_corrida. lia.
Qed.

Lemma tipos_barco (r c len : Z) (d : Direccion) (b : Barco) (x : Celda) :
  Barco_init (r, c) len d = Ok b -> x ∈ partes b ->
  tipo x <> Pieza.W /\ tipo x <> Pieza.C.
Proof.
  intros Hb Hx.
  destruct (Barco_init_casos (r, c) len d) as [[_ Hno]|[Hlen _]]; [congruence|].
  destruct (decide (len = 1)) as [->|Hne].
  - rewrite Barco_init_uno in Hb. injection Hb as <-. simpl in Hx.
    apply list_elem_of_In in Hx. destruct Hx as [<-|[]]. by destruct d.
  - rewrite Barco_init_largo in Hb by lia. injection Hb as <-.
    cbn [Barco_objetivo partes] in Hx.
    destruct d; unfold corrida in Hx;
      rewrite elem_of_cons, elem_of_app, list_elem_of_fmap, elem_of_cons,
        elem_of_nil in Hx;
      destruct Hx as [->|[(i & -> & _)|[->|[]]]]; done.
Qed.

(** X2.  The cells of a ship that [Barco.__init__] returns sit on pairwise
    distinct positions, and none of them has the water kind or the
    submarine kind. *)
Theorem barco_celdas_propias (ubic : Z * Z) (len : Z) (d : Direccion) (b : Barco) :
  Barco_init ubic len d = Ok b ->
  NoDup (posicion <$> partes b)
  /\ forall x, x ∈ partes b -> tipo x <> Pieza.W /\ tipo x <> Pieza.C.
Proof.
  intros Hb. split; [by apply (Barco_posiciones_distintas ubic len d)|].
  destruct ubic as [r c]. intros x Hx. by apply (tipos_barco r c len d b).
Qed.

(** X2 at the horizontal ship of length 3 anchored at (1, 1). *)
Lemma barco_celdas_propias_witness :
  exists b : Barco,
    Barco_init (1, 1) 3 HORIZONTAL = Ok b
    /\ NoDup (posicion <$> partes b)
    /\ forall x, x ∈ partes b -> tipo x <> Pieza.W /\ tipo x <> Pieza.C.
Proof.
  eexists. split; [reflexivity|].
  apply (barco_celdas_propias (1, 1) 3 HORIZONTAL). reflexivity.
Defined.

(** X3.  A ship built by [Barco.__init__] at the anchor [(r, c)] passes
    [validar_limites] on a board of [nF] rows and [nC] columns exactly
    when the anchor is not negative and the whole run fits: for a vertical
    ship [r + longitud <= nF] and [c < nC], for a horizontal one [r < nF]
    and [c + longitud <= nC]. *)
Theorem validar_limites_barco (r c len : Z) (d : Direccion) (b : Barco)
    (tab : Tablero) (nF nC : Z) :
  Barco_init (r, c) len d = Ok b ->
  tamano_tablero tab = (nF, nC) ->
  validar_limites b tab = true
  <-> 0 <= r /\ 0 <= c
      /\ match d with
         | VERTICAL => r + len <= nF /\ c < nC
         | HORIZONTAL => r < nF /\ c + len <= nC
         end.
Proof.
  intros Hb Htam. destruct (posiciones_barco r c len d b Hb) as [Hlen Hpos].
  rewrite (validar_limites_eq tab nF nC Htam), forallb_elem_of.
  assert (Hiff : (forall x, x ∈ partes b ->
                    bool_decide (en_tablero nF nC (posicion x)) = true)
                 <-> forall i, 0 <= i < len ->
                       en_tablero nF nC match d with
                                        | VERTICAL => (r + i, c)
                                        | HORIZONTAL => (r, c + i)
                                        end).
  { split.
    - intros H i Hi.
      assert (Hin : match d with VERTICAL => (r + i, c) | HORIZONTAL => (r, c + i) end
                    ∈ posicion <$> partes b).
      { rewrite Hpos. apply list_elem_of_fmap. exists i.
        split; [done|]. apply elem_of_seqZ. lia. }
      apply list_elem_of_fmap in Hin as (x & Heq & Hx).
      specialize (H x Hx). apply bool_decide_eq_true in H.
      by destruct d; rewrite Heq.
    - intros H x Hx. apply bool_decide_eq_true.
      assert (Hin : posicion x ∈ posicion <$> partes b)
        by (by apply list_elem_of_fmap_2).
      rewrite Hpos in Hin. apply list_elem_of_fmap in Hin as (i & -> & Hi).
      apply elem_of_seqZ in Hi. apply H. lia. }
  rewrite Hiff. unfold en_tablero. split.
  - intros H. pose proof (H 0 ltac:(lia)) as H0.
    pose proof (H (len - 1) ltac:(lia)) as H1.
    destruct d; simpl in *; lia.
  - intros H i Hi. destruct d; simpl; lia.
Qed.

(** X3 on a 4 x 4 board: the vertical ship of length 3 anchored at (1, 2)
    fits. *)
Lemma validar_limites_barco_witness :
  exists (b : Barco) (tab : Tablero),
    Barco_init (1, 2) 3 VERTICAL = Ok b
    /\ valor (Tablero_init 4 4 [Barco_objetivo b] [] [0; 1; 1; 1] [0; 0; 3; 0]) = Ok tab
    /\ validar_limites b tab = true.
Proof.
  eexists. eexists. split; [reflexivity|]. split; [reflexivity|].
  apply (validar_limites_barco 1 2 3 VERTICAL _ _ 4 4); [reflexivity | reflexivity |].
  lia.
Defined.

(** ** How painting composes *)

Lemma tipo_en_nat (m : list (list Pieza.t)) (i j : nat) :
  tipo_en m (Z.of_nat i) (Z.of_nat j) = m !! i ≫= (fun fila_f => fila_f !! j).
Proof. unfold tipo_en. by rewrite !Nat2Z.id. Qed.

(** Two matrices of the same shape that agree at every position inside
    the board are the same matrix. *)
Lemma rectangular_ext (filas cols : Z) (m1 m2 : list (list Pieza.t)) :
  rectangular filas cols m1 -> rectangular filas cols m2 ->
  (forall f c, en_tablero filas cols (f, c) -> tipo_en m1 f c = tipo_en m2 f c) ->
  m1 = m2.
Proof.
  intros [Hl1 Hc1] [Hl2 Hc2] Heq. apply list_eq. intros i.
  destruct (decide (i < length m1)%nat) as [Hi|Hi].
  - destruct (lookup_lt_is_Some_2 m1 i Hi) as [r1 Hr1].
    destruct (lookup_lt_is_Some_2 m2 i) as [r2 Hr2]; [lia|].
    rewrite Hr1, Hr2. f_equal.
    pose proof (Forall_lookup_1 _ _ _ _ Hc1 Hr1) as Hlen1.
    pose proof (Forall_lookup_1 _ _ _ _ Hc2 Hr2) as Hlen2.
    simpl in Hlen1, Hlen2.
    apply list_eq. intros j.
    destruct (decide (j < length r1)%nat) as [Hj|Hj].
    + specialize (Heq (Z.of_nat i) (Z.of_nat j)).
      rewrite !tipo_en_nat, Hr1, Hr2 in Heq. apply Heq.
      unfold en_tablero. simpl. lia.
    + rewrite !lookup_ge_None_2 by lia. done.
  - rewrite !lookup_ge_None_2 by lia. done.
Qed.

(** Fleets that ask for the same kind at every position inside the board
    are painted to the same matrix. *)
Lemma construir_matriz_igual (filas cols : Z) (fl1 fl2 : list Objetivo) :
  (forall f c, en_tablero filas cols (f, c) -> pintado fl1 f c = pintado fl2 f c) ->
  valor (construir_matriz (filas, cols) fl1) = valor (construir_matriz (filas, cols) fl2).
Proof.
  intros Heq.
  destruct (construir_matriz_corre filas cols fl1) as (m1 & -> & Hm1 & Hg1).
  destruct (construir_matriz_corre filas cols fl2) as (m2 & -> & Hm2 & Hg2).
  cbn [valor]. f_equal. apply (rectangular_ext filas cols); [done | done |].
  intros f c Hfc. by rewrite Hg1, Hg2, Heq.
Qed.

Lemma ultimo_declarado_reclama celdas f c k :
  ultimo_declarado celdas f c = Some k ->
  exists x, x ∈ celdas /\ posicion x = (f, c) /\ tipo x = k.
Proof.
  unfold ultimo_declarado. intros Hk.
  destruct (last (filter _ celdas)) as [w|] eqn:Hw; [|done].
  injection Hk as <-.
  apply last_Some_elem_of, list_elem_of_filter in Hw as [Hpos Hin].
  by exists w.
Qed.

(** X7.  Two neighbouring targets of the fleet that share no position
    inside the board can be listed in either order: [construir_matriz]
    returns the same matrix. *)
Theorem construir_matriz_conmuta (filas cols : Z) (pre : list Objetivo)
    (T1 T2 : Objetivo) (post : list Objetivo) :
  (forall x y, x ∈ partes T1 -> y ∈ partes T2 ->
     en_tablero filas cols (posicion x) -> posicion x <> posicion y) ->
  valor (construir_matriz (filas, cols) (pre ++ T1 :: T2 :: post))
  = valor (construir_matriz (filas, cols) (pre ++ T2 :: T1 :: post)).
Proof.
  intros Hdisj. apply construir_matriz_igual. intros f c Hfc.
  unfold pintado.
  rewrite !celdas_declaradas_app, !celdas_declaradas_cons, !ultimo_declarado_app.
  destruct (ultimo_declarado (celdas_declaradas post) f c); [done|].
  destruct (ultimo_declarado (partes T1) f c) as [k1|] eqn:H1;
    destruct (ultimo_declarado (partes T2) f c) as [k2|] eqn:H2; try done.
  apply ultimo_declarado_reclama in H1 as (x & Hx & Hpx & _).
  apply ultimo_declarado_reclama in H2 as (y & Hy & Hpy & _).
  destruct (Hdisj x y Hx Hy); [by rewrite Hpx | congruence].
Qed.

(** X7 on a 2 x 2 board, for submarines at (0, 0) and at (1, 1). *)
Lemma construir_matriz_conmuta_witness :
  valor (construir_matriz (2, 2) ([] ++ Submarino (0, 0) :: Submarino (1, 1) :: []))
  = valor (construir_matriz (2, 2) ([] ++ Submarino (1, 1) :: Submarino (0, 0) :: [])).
Proof.
  apply (construir_matriz_conmuta 2 2 [] (Submarino (0, 0)) (Submarino (1, 1)) []).
  intros x y Hx Hy _. apply list_elem_of_In in Hx. apply list_elem_of_In in Hy.
  destruct Hx as [<-|[]]. destruct Hy as [<-|[]].
  unfold posicion. simpl. discriminate.
Defined.

(** X8.  A target none of whose cells lies inside the board leaves no
    trace in the grid: [construir_matriz] returns the same matrix with the
    target in the fleet and without it. *)
Theorem construir_matriz_ignora_fuera (filas cols : Z) (pre : list Objetivo)
    (T : Objetivo) (post : list Objetivo) :
  (forall x, x ∈ partes T -> ~ en_tablero filas cols (posicion x)) ->
  valor (construir_matriz (filas, cols) (pre ++ T :: post))
  = valor (construir_matriz (filas, cols) (pre ++ post)).
Proof.
  intros Hfuera. apply construir_matriz_igual. intros f c Hfc.
  unfold pintado.
  rewrite !celdas_declaradas_app, !celdas_declaradas_cons, !ultimo_declarado_app.
  rewrite (ultimo_declarado_None (partes T));
    [by destruct (ultimo_declarado (celdas_declaradas post) f c)|].
  intros y Hy Hpos. apply (Hfuera y Hy). by rewrite Hpos.
Qed.

(** X8 on a 2 x 2 board, for a submarine at (2, 0). *)
Lemma construir_matriz_ignora_fuera_witness :
  valor (construir_matriz (2, 2) ([Submarino (0, 0)] ++ Submarino (2, 0) :: []))
  = valor (construir_matriz (2, 2) ([Submarino (0, 0)] ++ [])).
Proof.
  apply (construir_matriz_ignora_fuera 2 2 [Submarino (0, 0)] (Submarino (2, 0)) []).
  intros x Hx. apply list_elem_of_In in Hx. destruct Hx as [<-|[]].
  unfold en_tablero. simpl. lia.
Defined.

(** X9.  Listing a target twice in a row changes nothing in the grid:
    [construir_matriz] returns the same matrix as with the target listed
    once. *)
Theorem construir_matriz_repetido (filas cols : Z) (pre : list Objetivo)
    (T : Objetivo) (post : list Objetivo) :
  valor (construir_matriz (filas, cols) (pre ++ T :: T :: post))
  = valor (construir_matriz (filas, cols) (pre ++ T :: post)).
Proof.
  apply construir_matriz_igual. intros f c Hfc. unfold pintado.
  rewrite !celdas_declaradas_app, !celdas_declaradas_cons, !ultimo_declarado_app.
  destruct (ultimo_declarado (celdas_declaradas post) f c); [done|].
  by destruct (ultimo_declarado (partes T) f c).
Qed.

(** ** The count check with any clue lists *)

Lemma todos_resultado_app {A} (f : A -> resultado bool) (l1 l2 : list A) :
  todos_resultado f (l1 ++ l2)
  = match todos_resultado f l1 with
    | Ok true => todos_resultado f l2
    | Ok false => Ok false
    | Lanza e => Lanza e
    end.
Proof.
  induction l1 as [|x l1 IH]; [done|]. cbn [app todos_resultado].
  by destruct (f x) as [[|]|].
Qed.

Lemma todos_resultado_true {A} (f : A -> resultado bool) (l : list A) :
  todos_resultado f l = Ok true <-> forall x, x ∈ l -> f x = Ok true.
Proof.
  induction l as [|x l IH]; cbn [todos_resultado].
  - split; [|done]. intros _ x Hx. by apply elem_of_nil in Hx.
  - split.
    + intros H y Hy. destruct (f x) as [[|]|] eqn:Hfx; try done.
      apply elem_of_cons in Hy as [->|Hy]; [done|]. by apply IH.
    + intros H. rewrite (H x) by left. apply IH. intros y Hy. apply H. by right.
Qed.

Lemma comparar_pista_valor (pistas_l : list Z) (i suma_actual : Z) :
  0 <= i ->
  valor (pista ← sin_acceso (getitem pistas_l i);
         if bool_decide (suma_actual <> pista) then mret false else mret true)
  = resultado_cuenta pistas_l (fun _ => suma_actual) i.
Proof.
  intros Hi. unfold resultado_cuenta.
  destruct (pistas_l !! Z.to_nat i) as [p|] eqn:Hp.
  - rewrite comparar_pista by (apply lookup_lt_Some in Hp; lia).
    by rewrite Hp, (bool_decide_ext (Some p = Some suma_actual) (suma_actual = p))
      by (split; congruence).
  - apply lookup_ge_None in Hp.
    rewrite valor_bind. unfold sin_acceso. cbn [valor].
    by rewrite getitem_fuera by lia.
Qed.

Section cuentas.
Variables (tab : Tablero) (filas cols : Z).
Hypothesis Htam : tamano_tablero tab = (filas, cols).
Hypothesis Hrect : rectangular filas cols (matriz tab).

Lemma suma_fila_valor f :
  0 <= f < filas ->
  valor (contar (fun c => v ← leer (matriz tab) f c; mret (Pieza.es_barco v))
                (range 0 cols))
  = Ok (barcos_en (fila_de (matriz tab) f)).
Proof.
  intros Hf.
  destruct (rectangular_fila filas cols _ f Hrect Hf) as (fila_f & Hfila & Hlen).
  apply contar_linea.
  - unfold fila_de. by rewrite Hfila.
  - intros c Hc.
    destruct (leer_dentro filas cols _ f c Hrect) as (v & Hv & ->); [done|].
    exists v. split; [|done].
    unfold tipo_en in Hv. rewrite Hfila in Hv.
    unfold fila_de. by rewrite Hfila.
Qed.

Lemma suma_columna_valor c :
  0 <= c < cols ->
  valor (contar (fun f => v ← leer (matriz tab) f c; mret (Pieza.es_barco v))
                (range 0 filas))
  = Ok (barcos_en (columna_de (matriz tab) c)).
Proof.
  intros Hc. pose proof Hrect as [Hfilas Hcols].
  destruct (columna_de_lookup (Z.to_nat c) (Z.to_nat cols) _ Hcols) as [Hl Hg];
    [lia|].
  apply contar_linea.
  - unfold columna_de. by rewrite Hl.
  - intros f Hf.
    destruct (leer_dentro filas cols _ f c Hrect) as (v & Hv & ->); [done|].
    exists v. split; [|done]. unfold columna_de. by rewrite Hg.
Qed.

(** The outcome of [validar_cuentas], whatever the clue lists: the rows
    are compared first, and the columns only when every row agrees. *)
Lemma validar_cuentas_valor :
  valor (validar_cuentas tab)
  = match todos_resultado
            (resultado_cuenta (pistas_filas tab)
               (fun f => barcos_en (fila_de (matriz tab) f)))
            (range 0 filas) with
    | Ok true =>
        todos_resultado
          (resultado_cuenta (pistas_cols tab)
             (fun c => barcos_en (columna_de (matriz tab) c)))
          (range 0 cols)
    | Ok false => Ok false
    | Lanza e => Lanza e
    end.
Proof.
  unfold validar_cuentas. rewrite Htam, valor_bind, valor_todos.
  rewrite (todos_resultado_ext _
             (resultado_cuenta (pistas_filas tab)
                (fun f => barcos_en (fila_de (matriz tab) f))) (range 0 filas)).
  - destruct (todos_resultado _ (range 0 filas)) as [[|]|e]; [|done|done].
    cbn [mbind resultado_bind]. rewrite valor_todos.
    apply todos_resultado_ext. intros c Hc. apply elem_of_range in Hc.
    rewrite valor_bind, suma_columna_valor by done. cbn [mbind resultado_bind].
    apply comparar_pista_valor. lia.
  - intros f Hf. apply elem_of_range in Hf.
    rewrite valor_bind, suma_fila_valor by done. cbn [mbind resultado_bind].
    apply comparar_pista_valor. lia.
Qed.

Lemma validar_cuentas_accesos :
  Forall (en_tablero filas cols) (accesos (validar_cuentas tab)).
Proof.
  unfold validar_cuentas. rewrite Htam.
  apply accesos_bind_Forall.
  - apply accesos_todos. intros f Hf. apply elem_of_range in Hf.
    apply accesos_bind_Forall.
    + apply accesos_contar. intros c Hc. apply elem_of_range in Hc.
      apply accesos_bind_Forall; [|intros; constructor].
      unfold leer. cbn [accesos]. constructor; [by split | constructor].
    + intros s. apply accesos_bind_Forall; [constructor|].
      intros p. by destruct (bool_decide _); constructor.
  - intros [|]; [|constructor].
    apply accesos_todos. intros c Hc. apply elem_of_range in Hc.
    apply accesos_bind_Forall.
    + apply accesos_contar. intros f Hf. apply elem_of_range in Hf.
      apply accesos_bind_Forall; [|intros; constructor].
      unfold leer. cbn [accesos]. constructor; [by split | constructor].
    + intros s. apply accesos_bind_Forall; [constructor|].
      intros p. by destruct (bool_decide _); constructor.
Qed.

End cuentas.

Lemma resultado_cuenta_Ok (pistas_l : list Z) (cuenta : Z -> Z) (n : Z) :
  n <= Z.of_nat (length pistas_l) ->
  todos_resultado (resultado_cuenta pistas_l cuenta) (range 0 n)
  = Ok (forallb (fun i => bool_decide (pistas_l !! Z.to_nat i = Some (cuenta i)))
                (range 0 n)).
Proof.
  intros Hn. rewrite <- todos_resultado_Ok. apply todos_resultado_ext.
  intros i Hi. apply elem_of_range in Hi. unfold resultado_cuenta.
  destruct (lookup_lt_is_Some_2 pistas_l (Z.to_nat i)) as [p Hp]; [lia|].
  rewrite Hp. f_equal. apply bool_decide_ext. split; congruence.
Qed.

Lemma range_partido (a n : Z) :
  0 <= a < n -> range 0 n = range 0 a ++ a :: range (a + 1) n.
Proof.
  intros Ha. unfold range.
  replace (n - 0) with (a + (n - a)) by lia.
  rewrite seqZ_app by lia. f_equal; [f_equal; lia|].
  rewrite Z.add_0_l, seqZ_cons by lia. do 2 f_equal; lia.
Qed.

(** X10.  [validar_cuentas] reads only positions inside the board,
    whatever the clue lists.  The one exception it can raise is
    [IndexError], and only when the row clues are fewer than the rows or
    the column clues fewer than the columns. *)
Theorem validar_cuentas_segura nF nC fl ps (pf pc : list Z) :
  exists tab,
    valor (Tablero_init nF nC fl ps pf pc) = Ok tab
    /\ Forall (en_tablero nF nC) (accesos (validar_cuentas tab))
    /\ forall e, valor (validar_cuentas tab) = Lanza e ->
         e = IndexError
         /\ (Z.of_nat (length pf) < nF \/ Z.of_nat (length pc) < nC).
Proof.
  destruct (Tablero_init_corre nF nC fl ps pf pc) as (m & Hrun & Hm & _).
  set (tab := MkTablero (nF, nC) fl ps pf pc m) in *.
  exists tab. split; [by rewrite Hrun|].
  split; [by apply (validar_cuentas_accesos tab nF nC)|].
  intros e. rewrite (validar_cuentas_valor tab nF nC eq_refl Hm).
  cbn [pistas_filas pistas_cols matriz tab]. intros He.
  assert (Hsolo : forall pl cuenta n e',
             todos_resultado (resultado_cuenta pl cuenta) (range 0 n) = Lanza e' ->
             e' = IndexError /\ Z.of_nat (length pl) < n).
  { intros pl cuenta n e' H.
    destruct (decide (n <= Z.of_nat (length pl))) as [Hn|Hn].
    - by rewrite resultado_cuenta_Ok in H.
    - split; [|lia]. clear Hn. induction (range 0 n) as [|i l IH]; [done|].
      cbn [todos_resultado] in H. unfold resultado_cuenta at 1 in H.
      destruct (pl !! Z.to_nat i); [|congruence].
      destruct (bool_decide _); [by apply IH | done]. }
  destruct (todos_resultado _ (range 0 nF)) as [[|]|e1] eqn:H1; [|done|].
  - destruct (Hsolo _ _ _ _ He) as [-> Hlt]. split; [done | by right].
  - injection He as <-. destruct (Hsolo _ _ _ _ H1) as [-> Hlt].
    split; [done | by left].
Qed.

(** X11.  When the row clues are fewer than the rows, [validar_cuentas]
    raises [IndexError] if every row that has a clue agrees with it, and
    answers false, without raising, if some row that has a clue disagrees
    with it. *)
Theorem validar_cuentas_pistas_cortas nF nC fl ps (pf pc : list Z) :
  Z.of_nat (length pf) < nF ->
  exists tab,
    valor (Tablero_init nF nC fl ps pf pc) = Ok tab
    /\ ((forall f, 0 <= f < Z.of_nat (length pf) ->
           pf !! Z.to_nat f = Some (barcos_en (fila_de (matriz tab) f))) ->
        valor (validar_cuentas tab) = Lanza IndexError)
    /\ ((exists f, 0 <= f < Z.of_nat (length pf)
                   /\ pf !! Z.to_nat f <> Some (barcos_en (fila_de (matriz tab) f))) ->
        valor (validar_cuentas tab) = Ok false).
Proof.
  intros Hcorta.
  destruct (Tablero_init_corre nF nC fl ps pf pc) as (m & Hrun & Hm & _).
  set (tab := MkTablero (nF, nC) fl ps pf pc m) in *.
  exists tab. split; [by rewrite Hrun|].
  rewrite (validar_cuentas_valor tab nF nC eq_refl Hm).
  cbn [pistas_filas pistas_cols matriz tab].
  rewrite (range_partido (Z.of_nat (length pf)) nF) by lia.
  rewrite todos_resultado_app, resultado_cuenta_Ok by lia.
  split.
  - intros Hbien.
    rewrite (proj2 (forallb_elem_of _ _)).
    + cbn [todos_resultado]. unfold resultado_cuenta at 1.
      by rewrite Nat2Z.id, lookup_ge_None_2 by lia.
    + intros f Hf. apply elem_of_range in Hf. by apply bool_decide_eq_true, Hbien.
  - intros (f & Hf & Hmal).
    destruct (forallb _ (range 0 (Z.of_nat (length pf)))) eqn:Hb; [|done].
    rewrite forallb_elem_of in Hb.
    specialize (Hb f (proj2 (elem_of_range _ _ _) Hf)).
    by apply bool_decide_eq_true in Hb.
Qed.

(** X11 on the 2 x 2 board with the submarine at (0, 0) and one row clue:
    with the clue 1 the check raises, with the clue 0 it answers false. *)
Lemma validar_cuentas_pistas_cortas_witness :
  (exists tab,
     valor (Tablero_init 2 2 [Submarino (0, 0)] [] [1] [1; 0]) = Ok tab
     /\ valor (validar_cuentas tab) = Lanza IndexError)
  /\ (exists tab,
        valor (Tablero_init 2 2 [Submarino (0, 0)] [] [0] [1; 0]) = Ok tab
        /\ valor (validar_cuentas tab) = Ok false).
Proof.
  split.
  - destruct (validar_cuentas_pistas_cortas 2 2 [Submarino (0, 0)] [] [1] [1; 0])
      as (tab & Htab & H & _); [simpl; lia|].
    exists tab. split; [exact Htab|]. apply H.
    vm_compute in Htab. injection Htab as <-.
    intros f Hf. simpl in Hf. by replace f with 0 by lia.
  - destruct (validar_cuentas_pistas_cortas 2 2 [Submarino (0, 0)] [] [0] [1; 0])
      as (tab & Htab & _ & H); [simpl; lia|].
    exists tab. split; [exact Htab|]. apply H.
    vm_compute in Htab. injection Htab as <-.
    exists 0. split; [simpl; lia|]. discriminate.
Defined.

(** ** Row clues and column clues count the same cells *)

Lemma barcos_en_app l1 l2 : barcos_en (l1 ++ l2) = barcos_en l1 + barcos_en l2.
Proof. unfold barcos_en. rewrite filter_app, length_app. lia. Qed.

Lemma barcos_en_cons v l :
  barcos_en (v :: l) = (if bool_decide (v <> Pieza.W) then 1 else 0) + barcos_en l.
Proof.
  unfold barcos_en. rewrite filter_cons.
  destruct (decide (v <> Pieza.W)) as [H|H].
  - rewrite bool_decide_eq_true_2 by done. simpl length. lia.
  - rewrite bool_decide_eq_false_2 by done. lia.
Qed.

Lemma suma_cons x l : suma (x :: l) = x + suma l.
Proof. reflexivity. Qed.

Lemma suma_app l1 l2 : suma (l1 ++ l2) = suma l1 + suma l2.
Proof.
  induction l1 as [|x l1 IH]; [done|].
  rewrite <- app_comm_cons, !suma_cons, IH. lia.
Qed.

Lemma suma_fmap_mas {A} (a b : A -> Z) (l : list A) :
  suma ((fun x => a x + b x) <$> l) = suma (a <$> l) + suma (b <$> l).
Proof.
  induction l as [|x l IH]; [done|].
  rewrite !fmap_cons, !suma_cons, IH. lia.
Qed.

Lemma suma_filas (m : list (list Pieza.t)) :
  suma (barcos_en <$> m) = barcos_en (concat m).
Proof.
  induction m as [|fila_f m IH]; [done|].
  rewrite fmap_cons, suma_cons, IH. simpl concat. by rewrite barcos_en_app.
Qed.

(** Counting the ship cells of a row cell by cell. *)
Lemma suma_indicadores (fila_f : list Pieza.t) :
  suma ((fun j : nat => match fila_f !! j with
                        | Some v => if bool_decide (v <> Pieza.W) then 1 else 0
                        | None => 0
                        end) <$> seq 0 (length fila_f))
  = barcos_en fila_f.
Proof.
  induction fila_f as [|v fila_f IH] using rev_ind; [done|].
  rewrite length_app, Nat.add_comm. simpl length. simpl Nat.add.
  rewrite seq_S, fmap_app, suma_app, barcos_en_app. simpl.
  rewrite list_lookup_middle by done.
  rewrite <- IH, barcos_en_cons. change (barcos_en []) with 0.
  rewrite !Z.add_0_r. f_equal. f_equal.
  apply list_fmap_ext. intros i j Hj. apply lookup_seq in Hj as [-> Hi].
  by rewrite lookup_app_l by lia.
Qed.

Lemma suma_columnas (n : nat) (m : list (list Pieza.t)) :
  Forall (fun fila_f => length fila_f = n) m ->
  suma ((fun j : nat => barcos_en (columna_de m (Z.of_nat j))) <$> seq 0 n)
  = barcos_en (concat m).
Proof.
  intros Hm. induction Hm as [|fila_f m Hlen Hm IH].
  - simpl concat. change (barcos_en []) with 0.
    induction (seq 0 n) as [|j l IHl]; [done|].
    rewrite fmap_cons, suma_cons, IHl. reflexivity.
  - simpl concat. rewrite barcos_en_app, <- IH, <- (suma_indicadores fila_f), Hlen.
    rewrite <- suma_fmap_mas. f_equal.
    apply list_fmap_ext. intros i j Hj. apply lookup_seq in Hj as [-> Hi].
    simpl in Hi. unfold columna_de. rewrite Nat2Z.id. cbn [omap list_omap].
    destruct (lookup_lt_is_Some_2 fila_f i) as [v Hv]; [lia|].
    simpl. rewrite Hv. apply barcos_en_cons.
Qed.

Lemma resultado_cuenta_true (pistas_l : list Z) (cuenta : Z -> Z) (n : Z) :
  todos_resultado (resultado_cuenta pistas_l cuenta) (range 0 n) = Ok true ->
  take (Z.to_nat n) pistas_l
  = (fun j : nat => cuenta (Z.of_nat j)) <$> seq 0 (Z.to_nat n).
Proof.
  rewrite todos_resultado_true. intros H. apply list_eq. intros i.
  rewrite list_lookup_fmap.
  destruct (decide (i < Z.to_nat n)%nat) as [Hi|Hi].
  - rewrite lookup_take_lt, lookup_seq_lt by done. simpl.
    assert (Hin : Z.of_nat i ∈ range 0 n) by (apply elem_of_range; lia).
    specialize (H (Z.of_nat i) Hin). unfold resultado_cuenta in H.
    rewrite Nat2Z.id in H.
    destruct (pistas_l !! i) as [p|]; [|done].
    injection H as H. apply bool_decide_eq_true in H. by rewrite H.
  - rewrite lookup_take_ge, lookup_seq_ge by lia. done.
Qed.

(** X12.  If [validar_cuentas] answers true on the board the constructor
    returns, then the first [nFilas] row clues and the first [nColumnas]
    column clues each add up to the number of cells of the grid that are
    not water; in particular the two sums are equal. *)
Theorem validar_cuentas_totales nF nC fl ps (pf pc : list Z) :
  exists tab,
    valor (Tablero_init nF nC fl ps pf pc) = Ok tab
    /\ (valor (validar_cuentas tab) = Ok true ->
        suma (take (Z.to_nat nF) pf) = barcos_en (concat (matriz tab))
        /\ suma (take (Z.to_nat nC) pc) = barcos_en (concat (matriz tab))).
Proof.
  destruct (Tablero_init_corre nF nC fl ps pf pc) as (m & Hrun & Hm & _).
  set (tab := MkTablero (nF, nC) fl ps pf pc m) in *.
  exists tab. split; [by rewrite Hrun|].
  rewrite (validar_cuentas_valor tab nF nC eq_refl Hm).
  cbn [pistas_filas pistas_cols matriz tab].
  destruct (todos_resultado _ (range 0 nF)) as [[|]|] eqn:Hf; [|done|done].
  intros Hc. destruct Hm as [Hfilas Hcols]. split.
  - rewrite <- suma_filas. f_equal.
    rewrite (resultado_cuenta_true _ _ _ Hf). apply list_eq. intros i.
    rewrite !list_lookup_fmap.
    destruct (decide (i < Z.to_nat nF)%nat) as [Hi|Hi].
    + rewrite lookup_seq_lt by done. simpl.
      destruct (lookup_lt_is_Some_2 m i) as [fila_f Hfila]; [lia|].
      rewrite Hfila. simpl. unfold fila_de. by rewrite Nat2Z.id, Hfila.
    + rewrite lookup_seq_ge, lookup_ge_None_2 by lia. done.
  - rewrite <- (suma_columnas (Z.to_nat nC) m Hcols).
    by rewrite (resultado_cuenta_true _ _ _ Hc).
Qed.

(** ** Fleets on the board they are painted on *)

Section flota_pintada.
Variables (tab : Tablero) (filas cols : Z) (fl : list Objetivo).
Hypothesis Htam : tamano_tablero tab = (filas, cols).
Hypothesis Hrect : rectangular filas cols (matriz tab).
Hypothesis Hpint : forall f c, en_tablero filas cols (f, c) ->
  tipo_en (matriz tab) f c = Some (pintado fl f c).

Lemma validar_restricciones_corre (self : Objetivo) :
  exists bi be : bool,
    valor (validar_integridad self tab) = Ok bi
    /\ valor (validar_espaciado self tab) = Ok be
    /\ valor (validar_restricciones self tab)
       = Ok (validar_limites self tab && bi && be).
Proof.
  destruct (validar_integridad_corre tab filas cols Htam Hrect self) as [Hi _].
  destruct (validar_espaciado_corre tab filas cols Htam Hrect self) as [He _].
  do 2 eexists. split; [exact Hi|]. split; [exact He|].
  by apply validar_restricciones_valor.
Qed.

Lemma obtener_barcos_invalidos_valor :
  valor (obtener_barcos_invalidos tab)
  = Ok (filter (fun o => valor (validar_restricciones o tab) = Ok false) (flota tab)).
Proof.
  set (ok := fun o => match valor (validar_restricciones o tab) with
                      | Ok b => b
                      | Lanza _ => false
                      end).
  assert (Hok : forall o, valor (validar_restricciones o tab) = Ok (ok o)).
  { intros o. destruct (validar_restricciones_corre o) as (bi & be & _ & _ & Hb).
    unfold ok. by rewrite Hb. }
  destruct (filtrar_corre
              (fun barco => valido ← validar_restricciones barco tab; mret (negb valido))
              (fun o => negb (ok o)) (flota tab)) as [Hv _].
  { intros o _. by rewrite valor_bind, Hok. }
  unfold obtener_barcos_invalidos. rewrite Hv. f_equal.
  apply list_filter_iff. intros o.
  rewrite Hok. destruct (ok o); simpl; split; (done || congruence).
Qed.

Lemma validar_restricciones_accesos (self : Objetivo) :
  Forall (en_tablero filas cols) (accesos (validar_restricciones self tab)).
Proof.
  destruct (validar_integridad_corre tab filas cols Htam Hrect self) as [_ Hi].
  destruct (validar_espaciado_corre tab filas cols Htam Hrect self) as [_ He].
  unfold validar_restricciones.
  destruct (validar_limites self tab); cbn [negb]; [|constructor].
  apply accesos_bind_Forall; [done|]. intros [|]; cbn [negb]; [|constructor].
  apply accesos_bind_Forall; [done|]. intros [|]; constructor.
Qed.

(** A neighbour that is not the target's own and is painted as ship
    material makes the spacing check fail. *)
Lemma validar_espaciado_falla (self : Objetivo) (x : Celda) (df dc : Z) :
  x ∈ partes self -> en_tablero filas cols (posicion x) ->
  vecino_moore df dc ->
  en_tablero filas cols (fila x + df, columna x + dc) ->
  (fila x + df, columna x + dc) ∉ posicion <$> partes self ->
  pintado fl (fila x + df) (columna x + dc) <> Pieza.W ->
  valor (validar_espaciado self tab) = Ok false.
Proof.
  intros Hx Hdentro Hmoore Hvecino Hajeno Hbarco.
  destruct (validar_espaciado_corre tab filas cols Htam Hrect self) as [-> _].
  f_equal. apply not_true_is_false. intros Hb.
  rewrite forallb_elem_of in Hb. specialize (Hb x Hx).
  rewrite (bool_decide_eq_true_2 _ Hdentro) in Hb. cbn [negb orb] in Hb.
  rewrite forallb_elem_of in Hb.
  specialize (Hb (df, dc) (proj2 (deltas_moore df dc) Hmoore)).
  cbn [fst snd] in Hb.
  rewrite (bool_decide_eq_true_2 _ Hvecino) in Hb.
  rewrite (bool_decide_eq_true_2 _ Hajeno) in Hb. cbn [negb orb] in Hb.
  apply bool_decide_eq_true in Hb. rewrite (Hpint _ _ Hvecino) in Hb. congruence.
Qed.

End flota_pintada.

Lemma pintado_no_agua (fl : list Objetivo) (y : Celda) :
  (forall z, z ∈ celdas_declaradas fl -> tipo z <> Pieza.W) ->
  y ∈ celdas_declaradas fl ->
  pintado fl (fila y) (columna y) <> Pieza.W.
Proof.
  intros Hno Hy. unfold pintado.
  destruct (ultimo_declarado (celdas_declaradas fl) (fila y) (columna y)) as [k|] eqn:Hk.
  - apply ultimo_declarado_reclama in Hk as (w & Hw & _ & <-). by apply Hno.
  - unfold ultimo_declarado in Hk. apply fmap_None, last_None in Hk.
    destruct (filter_nil_not_elem_of _ _ y Hk eq_refl Hy).
Qed.

(** X13.  Two targets of the fleet that touch, also at a corner, both
    fail [validar_espaciado] and are both among the targets that
    [obtener_barcos_invalidos] returns.  They touch when a cell of one
    and a cell of the other, both inside the board, are one Moore step
    apart and neither cell's position is declared by the other target;
    the fleet is assumed to declare no cell of the water kind. *)
Theorem objetivos_que_se_tocan nF nC (fl : list Objetivo) ps pf pc
    (T1 T2 : Objetivo) (x y : Celda) (df dc : Z) :
  T1 ∈ fl -> T2 ∈ fl -> x ∈ partes T1 -> y ∈ partes T2 ->
  en_tablero nF nC (posicion x) -> en_tablero nF nC (posicion y) ->
  vecino_moore df dc ->
  posicion y = (fila x + df, columna x + dc) ->
  posicion y ∉ posicion <$> partes T1 ->
  posicion x ∉ posicion <$> partes T2 ->
  (forall T z, T ∈ fl -> z ∈ partes T -> tipo z <> Pieza.W) ->
  exists tab,
    valor (Tablero_init nF nC fl ps pf pc) = Ok tab
    /\ valor (validar_espaciado T1 tab) = Ok false
    /\ valor (validar_espaciado T2 tab) = Ok false
    /\ exists invalidos,
         valor (obtener_barcos_invalidos tab) = Ok invalidos
         /\ T1 ∈ invalidos /\ T2 ∈ invalidos.
Proof.
  intros HT1 HT2 Hx Hy Hdx Hdy Hmoore Hpos Hy1 Hx2 Hno.
  destruct (Tablero_init_corre nF nC fl ps pf pc) as (m & Hrun & Hm & Hget).
  set (tab := MkTablero (nF, nC) fl ps pf pc m) in *.
  exists tab. split; [by rewrite Hrun|].
  assert (Hno' : forall z, z ∈ celdas_declaradas fl -> tipo z <> Pieza.W).
  { intros z Hz. apply list_elem_of_bind in Hz as (T & Hz & HT). by apply (Hno T). }
  assert (Hcx : x ∈ celdas_declaradas fl)
    by (apply list_elem_of_bind; by exists T1).
  assert (Hcy : y ∈ celdas_declaradas fl)
    by (apply list_elem_of_bind; by exists T2).
  unfold posicion in Hpos. injection Hpos as Hfy Hcy'.
  assert (He1 : valor (validar_espaciado T1 tab) = Ok false).
  { apply (validar_espaciado_falla tab nF nC fl eq_refl Hm Hget T1 x df dc);
      try done.
    - unfold posicion in Hdy. by rewrite Hfy, Hcy' in Hdy.
    - unfold posicion in Hy1. by rewrite Hfy, Hcy' in Hy1.
    - rewrite <- Hfy, <- Hcy'. by apply pintado_no_agua. }
  assert (He2 : valor (validar_espaciado T2 tab) = Ok false).
  { assert (Hfx : fila x = fila y + - df) by lia.
    assert (Hcx' : columna x = columna y + - dc) by lia.
    apply (validar_espaciado_falla tab nF nC fl eq_refl Hm Hget T2 y (- df) (- dc));
      try done.
    - destruct Hmoore as (H1 & H2 & H3). split; [lia|]. split; [lia|].
      intros [= ? ?]. apply H3. f_equal; lia.
    - unfold posicion in Hdx. by rewrite Hfx, Hcx' in Hdx.
    - unfold posicion in Hx2. by rewrite Hfx, Hcx' in Hx2.
    - rewrite <- Hfx, <- Hcx'. by apply pintado_no_agua. }
  split; [exact He1|]. split; [exact He2|].
  eexists. split; [apply (obtener_barcos_invalidos_valor tab nF nC eq_refl Hm)|].
  cbn [flota tab]. split; apply list_elem_of_filter; (split; [|done]).
  - destruct (validar_restricciones_corre tab nF nC eq_refl Hm T1)
      as (bi & be & _ & He & ->).
    rewrite He1 in He. injection He as <-. by rewrite andb_false_r.
  - destruct (validar_restricciones_corre tab nF nC eq_refl Hm T2)
      as (bi & be & _ & He & ->).
    rewrite He2 in He. injection He as <-. by rewrite andb_false_r.
Qed.

(** X13 on a 3 x 3 board with submarines at (0, 0) and at (1, 1). *)
Lemma objetivos_que_se_tocan_witness :
  exists tab,
    valor (Tablero_init 3 3 [Submarino (0, 0); Submarino (1, 1)]
             [] [1; 1; 0] [1; 1; 0]) = Ok tab
    /\ valor (validar_espaciado (Submarino (0, 0)) tab) = Ok false
    /\ valor (validar_espaciado (Submarino (1, 1)) tab) = Ok false
    /\ exists invalidos,
         valor (obtener_barcos_invalidos tab) = Ok invalidos
         /\ Submarino (0, 0) ∈ invalidos /\ Submarino (1, 1) ∈ invalidos.
Proof.
  apply (objetivos_que_se_tocan 3 3 [Submarino (0, 0); Submarino (1, 1)]
           [] [1; 1; 0] [1; 1; 0] (Submarino (0, 0)) (Submarino (1, 1))
           (MkCelda 0 0 Pieza.C) (MkCelda 1 1 Pieza.C) 1 1).
  - left.
  - right. left.
  - left.
  - left.
  - unfold en_tablero. simpl. lia.
  - unfold en_tablero. simpl. lia.
  - unfold vecino_moore. split; [lia|]. split; [lia|]. discriminate.
  - reflexivity.
  - intros H. apply list_elem_of_In in H. destruct H as [H|[]]. discriminate H.
  - intros H. apply list_elem_of_In in H. destruct H as [H|[]]. discriminate H.
  - intros T z HT Hz. apply list_elem_of_In in HT.
    destruct HT as [<-|[<-|[]]]; apply list_elem_of_In in Hz;
      destruct Hz as [<-|[]]; discriminate.
Defined.

(** X14.  A target of the fleet is valid when it lies inside the board,
    declares no position with two different kinds, and every cell of
    every other target of the fleet is at least two rows or two columns
    away from each of its cells: [validar_restricciones] answers true and
    [obtener_barcos_invalidos] does not return the target. *)
Theorem objetivo_aislado_valido nF nC (pre : list Objetivo) (T : Objetivo)
    (post : list Objetivo) ps pf pc :
  (forall x, x ∈ partes T -> en_tablero nF nC (posicion x)) ->
  (forall y z, y ∈ partes T -> z ∈ partes T -> posicion y = posicion z ->
     tipo y = tipo z) ->
  (forall T' y x, T' ∈ pre ++ post -> y ∈ partes T' -> x ∈ partes T ->
     1 < Z.abs (fila y - fila x) \/ 1 < Z.abs (columna y - columna x)) ->
  exists tab,
    valor (Tablero_init nF nC (pre ++ T :: post) ps pf pc) = Ok tab
    /\ valor (validar_restricciones T tab) = Ok true
    /\ exists invalidos,
         valor (obtener_barcos_invalidos tab) = Ok invalidos /\ T ∉ invalidos.
Proof.
  intros Hdentro Hself Hlejos.
  destruct (Tablero_init_corre nF nC (pre ++ T :: post) ps pf pc)
    as (m & Hrun & Hm & Hget).
  set (tab := MkTablero (nF, nC) (pre ++ T :: post) ps pf pc m) in *.
  exists tab. split; [by rewrite Hrun|].
  assert (Hval : valor (validar_restricciones T tab) = Ok true).
  { destruct (validar_integridad_corre tab nF nC eq_refl Hm T) as [Hi _].
    destruct (validar_espaciado_corre tab nF nC eq_refl Hm T) as [He _].
    rewrite (validar_restricciones_valor tab T _ _ Hi He). f_equal.
    apply andb_true_iff. split; [apply andb_true_iff; split|].
    - rewrite (validar_limites_eq tab nF nC eq_refl). apply forallb_elem_of.
      intros x Hx. by apply bool_decide_eq_true, Hdentro.
    - apply forallb_elem_of. intros x Hx. apply andb_true_iff.
      split; apply bool_decide_eq_true; [by apply Hdentro|].
      cbn [matriz tab]. rewrite (Hget _ _ (Hdentro x Hx)). f_equal.
      apply pintado_ultimo_objetivo; [done | | done].
      intros T' y z HT' Hy Hz Hpos.
      destruct (Hlejos T' y z) as [H|H]; [apply elem_of_app; by right | done | done | |];
        unfold posicion in Hpos; injection Hpos as Hf Hc; lia.
    - apply forallb_elem_of. intros x Hx.
      rewrite (bool_decide_eq_true_2 _ (Hdentro x Hx)). cbn [negb orb].
      apply forallb_elem_of. intros [df dc] Hd. cbn [fst snd].
      apply deltas_moore in Hd as (Hdf & Hdc & _).
      case_bool_decide as Hvecino; [cbn [negb orb]|done].
      case_bool_decide as Hajeno; [cbn [negb orb]|done].
      apply bool_decide_eq_true. cbn [matriz tab].
      rewrite (Hget _ _ Hvecino). f_equal. unfold pintado.
      rewrite ultimo_declarado_None; [done|].
      intros y Hy Hpos. apply list_elem_of_bind in Hy as (T' & Hy & HT').
      apply elem_of_app in HT' as [HT'|HT'];
        [|apply elem_of_cons in HT' as [->|HT']].
      + destruct (Hlejos T' y x) as [H|H];
          [apply elem_of_app; by left | done | done | |];
          unfold posicion in Hpos; injection Hpos as Hf Hc; lia.
      + apply Hajeno. rewrite <- Hpos. by apply list_elem_of_fmap_2.
      + destruct (Hlejos T' y x) as [H|H];
          [apply elem_of_app; by right | done | done | |];
          unfold posicion in Hpos; injection Hpos as Hf Hc; lia. }
  split; [exact Hval|].
  eexists. split; [apply (obtener_barcos_invalidos_valor tab nF nC eq_refl Hm)|].
  intros Hin. apply list_elem_of_filter in Hin as [Hin _]. congruence.
Qed.

(** X14 on a 3 x 3 board: the vertical ship of two cells in column 0 and
    the submarine at (0, 2). *)
Lemma objetivo_aislado_valido_witness :
  exists tab,
    valor (Tablero_init 3 3
             ([] ++ MkObjetivo (0, 0) [MkCelda 0 0 Pieza.T; MkCelda 1 0 Pieza.B]
                 :: [Submarino (0, 2)])
             [] [2; 1; 0] [2; 0; 1]) = Ok tab
    /\ valor (validar_restricciones
                (MkObjetivo (0, 0) [MkCelda 0 0 Pieza.T; MkCelda 1 0 Pieza.B]) tab)
       = Ok true
    /\ exists invalidos,
         valor (obtener_barcos_invalidos tab) = Ok invalidos
         /\ MkObjetivo (0, 0) [MkCelda 0 0 Pieza.T; MkCelda 1 0 Pieza.B] ∉ invalidos.
Proof.
  apply (objetivo_aislado_valido 3 3 []
           (MkObjetivo (0, 0) [MkCelda 0 0 Pieza.T; MkCelda 1 0 Pieza.B])
           [Submarino (0, 2)] [] [2; 1; 0] [2; 0; 1]).
  - intros x Hx. apply list_elem_of_In in Hx.
    destruct Hx as [<-|[<-|[]]]; unfold en_tablero; simpl; lia.
  - intros y z Hy Hz. apply list_elem_of_In in Hy. apply list_elem_of_In in Hz.
    destruct Hy as [<-|[<-|[]]]; destruct Hz as [<-|[<-|[]]];
      (reflexivity || discriminate).
  - intros T' y x HT' Hy Hx. apply list_elem_of_In in HT'.
    destruct HT' as [<-|[]]. apply list_elem_of_In in Hy. destruct Hy as [<-|[]].
    apply list_elem_of_In in Hx. destruct Hx as [<-|[<-|[]]]; simpl; lia.
Defined.

(** X15.  On the board the constructor returns, [validar_restricciones]
    and [obtener_barcos_invalidos] never raise and read only positions
    inside the board, whatever the targets; and a target that fails
    [validar_limites] is rejected without any read of the matrix. *)
Theorem obtener_barcos_invalidos_segura nF nC fl ps pf pc :
  exists tab,
    valor (Tablero_init nF nC fl ps pf pc) = Ok tab
    /\ (exists invalidos, valor (obtener_barcos_invalidos tab) = Ok invalidos)
    /\ Forall (en_tablero nF nC) (accesos (obtener_barcos_invalidos tab))
    /\ forall self : Objetivo,
         (exists b, valor (validar_restricciones self tab) = Ok b)
         /\ Forall (en_tablero nF nC) (accesos (validar_restricciones self tab))
         /\ (validar_limites self tab = false ->
             validar_restricciones self tab = MkPy (Ok false) []).
Proof.
  destruct (Tablero_init_corre nF nC fl ps pf pc) as (m & Hrun & Hm & Hget).
  set (tab := MkTablero (nF, nC) fl ps pf pc m) in *.
  exists tab. split; [by rewrite Hrun|].
  split; [eexists; apply (obtener_barcos_invalidos_valor tab nF nC eq_refl Hm)|].
  split.
  - unfold obtener_barcos_invalidos. apply accesos_filtrar. intros o _.
    apply accesos_bind_Forall; [|intros; constructor].
    by apply (validar_restricciones_accesos tab nF nC).
  - intros self. split; [|split].
    + destruct (validar_restricciones_corre tab nF nC eq_refl Hm self)
        as (bi & be & _ & _ & Hb).
      eexists. exact Hb.
    + by apply (validar_restricciones_accesos tab nF nC).
    + intros Hlim. unfold validar_restricciones. by rewrite Hlim.
Qed.

(** X12 on the 2 x 2 board with the submarine at (0, 0): both clue lists
    add up to the one ship cell of the grid. *)
Lemma validar_cuentas_totales_witness :
  exists tab,
    valor (Tablero_init 2 2 [Submarino (0, 0)] [] [1; 0] [1; 0]) = Ok tab
    /\ suma (take 2 [1; 0]) = barcos_en (concat (matriz tab))
    /\ suma (take 2 [1; 0]) = 1.
Proof.
  destruct (validar_cuentas_totales 2 2 [Submarino (0, 0)] [] [1; 0] [1; 0])
    as (tab & Htab & H).
  exists tab. split; [exact Htab|].
  vm_compute in Htab. injection Htab as <-.
  split; [|reflexivity]. apply H. reflexivity.
Defined.

(** ** Boards on which nothing is painted *)

Lemma filter_ninguno {A} (P : A -> Prop) `{!forall x, Decision (P x)} (l : list A) :
  (forall x, x ∈ l -> ~ P x) -> filter P l = [].
Proof.
  induction l as [|x l IH]; intros Hl; [done|].
  rewrite filter_cons_False by (apply Hl; left).
  apply IH. intros y Hy. apply Hl. by right.
Qed.

Lemma rectangular_agua (filas cols : Z) :
  rectangular filas cols (replicate (Z.to_nat filas) (replicate (Z.to_nat cols) Pieza.W))
  /\ forall f c, en_tablero filas cols (f, c) ->
       tipo_en (replicate (Z.to_nat filas) (replicate (Z.to_nat cols) Pieza.W)) f c
       = Some Pieza.W.
Proof.
  split; [split|].
  - apply length_replicate.
  - apply Forall_replicate, length_replicate.
  - intros f c [Hf Hc]. simpl in Hf, Hc. unfold tipo_en.
    rewrite lookup_replicate_2 by lia. simpl. apply lookup_replicate_2. lia.
Qed.

Lemma barcos_en_agua (l : list Pieza.t) :
  (forall v, v ∈ l -> v = Pieza.W) -> barcos_en l = 0.
Proof.
  intros Hl. unfold barcos_en. rewrite filter_ninguno; [done|].
  intros v Hv Hno. by apply Hno, Hl.
Qed.

Lemma construir_matriz_sin_celdas (filas cols : Z) (fl : list Objetivo) :
  (forall T x, T ∈ fl -> x ∈ partes T -> ~ en_tablero filas cols (posicion x)) ->
  construir_matriz (filas, cols) fl
  = MkPy (Ok (replicate (Z.to_nat filas) (replicate (Z.to_nat cols) Pieza.W))) [].
Proof.
  intros Hfuera.
  assert (Hfuera' : forall x, x ∈ celdas_declaradas fl ->
                              ~ en_tablero filas cols (posicion x)).
  { intros x Hx. apply list_elem_of_bind in Hx as (T & Hx & HT). by apply (Hfuera T). }
  destruct (construir_matriz_corre filas cols fl) as (m & -> & Hm & Hget).
  rewrite filter_ninguno by done. f_equal. f_equal.
  destruct (rectangular_agua filas cols) as [Hrect Hagua].
  apply (rectangular_ext filas cols); [done | done |].
  intros f c Hfc. rewrite Hget, Hagua by done. f_equal. unfold pintado.
  rewrite ultimo_declarado_None; [done|].
  intros y Hy Hpos. apply (Hfuera' y Hy). by rewrite Hpos.
Qed.

(** X16.  When no declared cell of the fleet lies inside the board (the
    fleet is empty or wholly outside, or the board has no rows or no
    columns), [construir_matriz] writes nothing and returns the matrix of
    [nFilas] rows of [nColumnas] water cells; a dimension that is zero or
    negative gives no rows, or rows with no cells. *)
Theorem construir_matriz_agua (filas cols : Z) (fl : list Objetivo) :
  (forall T x, T ∈ fl -> x ∈ partes T -> ~ en_tablero filas cols (posicion x)) ->
  construir_matriz (filas, cols) fl
  = MkPy (Ok (replicate (Z.to_nat filas) (replicate (Z.to_nat cols) Pieza.W))) [].
Proof. apply construir_matriz_sin_celdas. Qed.

(** X16 for a board with no columns and for a fleet outside a 2 x 2
    board. *)
Lemma construir_matriz_agua_witness :
  construir_matriz (2, 0) [Submarino (0, 0)] = MkPy (Ok [[]; []]) []
  /\ construir_matriz (2, 2) [Submarino (0, 2)]
     = MkPy (Ok [[Pieza.W; Pieza.W]; [Pieza.W; Pieza.W]]) [].
Proof.
  split.
  - apply (construir_matriz_agua 2 0 [Submarino (0, 0)]).
    intros T x HT Hx [_ Hc]. simpl in Hc. lia.
  - apply (construir_matriz_agua 2 2 [Submarino (0, 2)]).
    intros T x HT Hx. apply list_elem_of_In in HT. destruct HT as [<-|[]].
    apply list_elem_of_In in Hx. destruct Hx as [<-|[]].
    unfold en_tablero. simpl. lia.
Defined.

(** X17.  On a board where no declared cell of the fleet lies inside the
    bounds, and with clue lists at least as long as the dimensions,
    [validar_cuentas] answers true exactly when every row clue and every
    column clue within the dimensions is zero. *)
Theorem validar_cuentas_agua nF nC (fl : list Objetivo) ps (pf pc : list Z) :
  (forall T x, T ∈ fl -> x ∈ partes T -> ~ en_tablero nF nC (posicion x)) ->
  nF <= Z.of_nat (length pf) ->
  nC <= Z.of_nat (length pc) ->
  exists tab,
    valor (Tablero_init nF nC fl ps pf pc) = Ok tab
    /\ exists b : bool,
         valor (validar_cuentas tab) = Ok b
         /\ (b = true <->
             (forall f, 0 <= f < nF -> pf !! Z.to_nat f = Some 0)
             /\ (forall c, 0 <= c < nC -> pc !! Z.to_nat c = Some 0)).
Proof.
  intros Hfuera Hpf Hpc.
  assert (Hrun : Tablero_init nF nC fl ps pf pc
                 = MkPy (Ok (MkTablero (nF, nC) fl ps pf pc
                               (replicate (Z.to_nat nF)
                                  (replicate (Z.to_nat nC) Pieza.W)))) []).
  { unfold Tablero_init. by rewrite construir_matriz_sin_celdas. }
  set (m := replicate (Z.to_nat nF) (replicate (Z.to_nat nC) Pieza.W)) in *.
  set (tab := MkTablero (nF, nC) fl ps pf pc m) in *.
  destruct (rectangular_agua nF nC) as [Hm _]. fold m in Hm.
  exists tab. split; [by rewrite Hrun|].
  rewrite (validar_cuentas_valor tab nF nC eq_refl Hm).
  cbn [pistas_filas pistas_cols matriz tab].
  rewrite !resultado_cuenta_Ok by done.
  assert (Hfilas : forall f, barcos_en (fila_de m f) = 0).
  { intros f. apply barcos_en_agua. intros v Hv. unfold fila_de, m in Hv.
    destruct (replicate _ _ !! Z.to_nat f) as [fila_f|] eqn:Hf;
      [|by apply elem_of_nil in Hv].
    apply lookup_replicate in Hf as [-> _]. simpl in Hv.
    by apply elem_of_replicate in Hv as [-> _]. }
  assert (Hcolumnas : forall c, barcos_en (columna_de m c) = 0).
  { intros c. apply barcos_en_agua. intros v Hv. unfold columna_de in Hv.
    apply list_elem_of_omap in Hv as (fila_f & Hf & Hv).
    apply elem_of_replicate in Hf as [-> _].
    by apply lookup_replicate in Hv as [-> _]. }
  exists (forallb (fun i => bool_decide (pf !! Z.to_nat i
                                         = Some (barcos_en (fila_de m i))))
                  (range 0 nF)
          && forallb (fun i => bool_decide (pc !! Z.to_nat i
                                            = Some (barcos_en (columna_de m i))))
                     (range 0 nC)).
  split.
  - by destruct (forallb _ (range 0 nF)).
  - rewrite andb_true_iff, !forallb_elem_of.
    setoid_rewrite elem_of_range. setoid_rewrite bool_decide_eq_true.
    setoid_rewrite Hfilas. setoid_rewrite Hcolumnas. done.
Qed.

(** X17 on the 3 x 3 board with an empty fleet: zero clues pass. *)
Lemma validar_cuentas_agua_witness :
  exists tab,
    valor (Tablero_init 3 3 [] [] [0; 0; 0] [0; 0; 0]) = Ok tab
    /\ valor (validar_cuentas tab) = Ok true.
Proof.
  destruct (validar_cuentas_agua 3 3 [] [] [0; 0; 0] [0; 0; 0])
    as (tab & Htab & b & Hb & Hiff).
  - intros T x HT. by apply elem_of_nil in HT.
  - simpl. lia.
  - simpl. lia.
  - exists tab. split; [exact Htab|]. rewrite Hb. f_equal. apply Hiff.
    split; intros i Hi;
      (assert (i = 0 \/ i = 1 \/ i = 2) as [-> | [-> | ->]] by lia; reflexivity).
Defined.
